(** * The emulator core of Firebird: [core/emu.cpp]

    A shallow embedding of the execution loop ([emu_loop]), the fault path
    ([error]), the throttle callback ([throttle_interval_event]) and the
    snapshot entry points ([emu_start], [emu_suspend], [emu_cleanup]),
    followed by the properties of the specification that concern them. *)

From Stdlib Require Import ZArith List Bool Lia Ascii String.
From Stdlib Require Import Floats Uint63.
Import ListNotations.
Local Open Scope Z_scope.

(** ** Machine integers *)

(** [uint32_t]: arithmetic modulo 2^32. *)
Definition wrap32 (z : Z) : Z := z mod 2 ^ 32.

(** [int]: two's complement wrap-around on 32 bits. *)
Definition sint32 (z : Z) : Z := (z + 2 ^ 31) mod 2 ^ 32 - 2 ^ 31.

(** [~k] for an [int] constant [k], converted to [uint32_t] by [&=]. *)
Definition not32 (k : Z) : Z := wrap32 (Z.lnot k).

(** A C condition [x & m]: true when some bit of [m] is set in [x]. *)
Definition has_bits (x m : Z) : bool := negb (Z.land x m =? 0).

(** [(double) z] for an integer of magnitude below 2^63. *)
Definition double_of_Z (z : Z) : float :=
  if z <? 0 then PrimFloat.opp (PrimFloat.of_uint63 (Uint63.of_Z (- z)))
  else PrimFloat.of_uint63 (Uint63.of_Z z).

(** A fixed-size C array indexed by constants: a total map on indices. *)
Definition upd {A : Type} (f : nat -> A) (i : nat) (v : A) : nat -> A :=
  fun j => if Nat.eqb j i then v else f j.

Lemma upd_same {A : Type} (f : nat -> A) i v : upd f i v i = v.
Proof. unfold upd. now rewrite Nat.eqb_refl. Qed.

Lemma upd_other {A : Type} (f : nat -> A) i j v : j <> i -> upd f i v j = f j.
Proof. intro Hne. unfold upd. now apply Nat.eqb_neq in Hne; rewrite Hne. Qed.

(** ** Constants of the headers [emu.h], [cpu.h], [sched.h], [mem.h]

    The headers are not part of the sources at hand; their constants are
    parameters of the development. *)
Class Header : Type := {
  EVENT_IRQ : Z;
  EVENT_FIQ : Z;
  EVENT_RESET : Z;
  EVENT_DEBUG_STEP : Z;
  EVENT_WAITING : Z;
  MODE_SVC : Z;
  EX_IRQ : Z;
  EX_FIQ : Z;
  CLOCK_27M : Z;
  SCHED_THROTTLE : nat;
  RF_READ_ONLY : Z;
  DBG_EXCEPTION : Z;
  sizeof_emu_snapshot : Z;
  sizeof_path_boot1 : nat;
  sizeof_path_flash : nat
}.

(** The pending-event constants are flags of one 32-bit word: each is a
    mask within the word, and the single-step request shares no bit with
    the interrupt, wait and reset requests. *)
Definition event_bits_disjoint `{Header} : Prop :=
  Z.land EVENT_DEBUG_STEP EVENT_IRQ = 0 /\
  Z.land EVENT_DEBUG_STEP EVENT_FIQ = 0 /\
  Z.land EVENT_DEBUG_STEP EVENT_WAITING = 0 /\
  Z.land EVENT_DEBUG_STEP EVENT_RESET = 0.

(** An assignment of the constants: one bit per event, the ARM encoding of
    supervisor mode, vector numbers in ARM order. *)
Definition sample_header : Header := {|
  EVENT_IRQ := 1;
  EVENT_FIQ := 2;
  EVENT_RESET := 4;
  EVENT_DEBUG_STEP := 8;
  EVENT_WAITING := 16;
  MODE_SVC := 0x13;
  EX_IRQ := 6;
  EX_FIQ := 7;
  CLOCK_27M := 6;
  SCHED_THROTTLE := 0;
  RF_READ_ONLY := 1;
  DBG_EXCEPTION := 0;
  sizeof_emu_snapshot := 4096;
  sizeof_path_boot1 := 8;
  sizeof_path_flash := 8
|}.

(** ** Output towards the front end and calls across the boundary *)

Inductive exec_mode := ArmMode | ThumbMode.

(** What the core does towards the front end, the host and the
    collaborating subsystems, in program order. *)
Inductive event :=
| EvDebugPrintf (prefix : string) (pc : Z)   (* gui_debug_printf(prefix " (%08x): ", pc) *)
| EvDebugMessage (msg : string)              (* gui_debug_vprintf(fmt, va), newline *)
| EvDebugger (reason : Z)                    (* debugger(reason, 0) *)
| EvStatus (msg : string)                    (* gui_status_printf *)
| EvShowSpeed (speed : float)                (* gui_show_speed *)
| EvDoStuff                                  (* gui_do_stuff(true) *)
| EvThrottleWait                             (* throttle_timer_wait *)
| EvPerror (path : list ascii)               (* gui_perror *)
| EvSchedProcess                             (* sched_process_pending_events *)
| EvException (vector : Z)                   (* cpu_exception *)
| EvDispatch (m : exec_mode)                 (* cpu_arm_loop / cpu_thumb_loop *)
| EvSchedReset                               (* sched_reset *)
| EvMemoryReset                              (* memory_reset *)
| EvMemoryDeinitialize                       (* memory_deinitialize *)
| EvFlashClose                               (* flash_close *)
| EvReadSig                                  (* a read of snapshot->sig *)
| EvFlashResume                              (* flash_resume *)
| EvFlashReadSettings                        (* flash_read_settings *)
| EvCpuResume                                (* cpu_resume *)
| EvMemoryResume                             (* memory_resume *)
| EvSchedResume                              (* sched_resume *)
| EvMunmap.                                  (* munmap *)

(** ** Throttle speed *)

(** [speed = (double)10000 * (intervals - prev_intervals) / time] *)
Definition throttle_speed (increments time : Z) : float :=
  PrimFloat.div
    (PrimFloat.mul (double_of_Z 10000) (double_of_Z increments))
    (double_of_Z time).

(** ** The machine state *)

(** The callbacks a scheduler slot can carry; [emu.cpp] registers one. *)
Inductive sched_proc := throttle_interval_event_proc | other_proc (id : nat).

(** [struct sched_item]: the clock and callback fields are the ones
    [emu.cpp] assigns; [item_rest] stands for its remaining words. *)
Record sched_item := {
  clock : Z;
  proc : option sched_proc;
  item_rest : list Z
}.

(** [struct sched_state]: the slot array and the remaining words. *)
Record sched_state := {
  items : nat -> sched_item;
  sched_rest : list Z
}.

(** [struct arm_state]: the fields [emu.cpp] names, and the remaining
    words of the structure. *)
Record arm_state := {
  reg : nat -> Z;
  cpsr_low28 : Z;
  control : Z;
  arm_rest : list Z
}.

(** [memset(&arm, 0, sizeof arm)] *)
Definition arm_zero (a : arm_state) : arm_state := {|
  reg := fun _ => 0;
  cpsr_low28 := 0;
  control := 0;
  arm_rest := map (fun _ => 0) (arm_rest a)
|}.

(** [struct emu_snapshot]: header fields, the two path fields as
    character arrays, and the sub-regions of the four subsystems. *)
Record emu_snapshot := {
  sig : Z;
  snap_product : Z;
  snap_asic_user_flags : Z;
  snap_path_boot1 : list ascii;
  snap_path_flash : list ascii;
  snap_flash : list Z;
  snap_cpu : list Z;
  snap_sched : list Z;
  snap_mem : list Z
}.

Definition SNAPSHOT_SIG : Z := 0xCAFEBEEF.

(** Configuration globals, set before [emu_start]. *)
Record config := {
  debug_on_start : bool;
  debug_on_warn : bool;
  turbo_mode : bool;
  boot_order : Z;
  path_boot1 : option (list ascii);
  path_flash : option (list ascii)
}.

Set Implicit Arguments.

Section Machine.

(** State owned by the collaborators: the storage subsystem, the
    peripherals behind the memory subsystem, and the host side (debug
    stubs, translation and address caches, link queue, timers). *)
Variables Flash Periph Host : Type.

(** [mem_areas]: area 0 is the boot ROM with its per-word flags, area 1
    the working RAM. Addresses are offsets into the area. *)
Record memory := {
  rom : Z -> Z;
  rom_flags : Z -> Z;
  ram : Z -> Z;
  ram_size : Z;
  periph : Periph
}.

Record emu_state := {
  arm : arm_state;
  cpu_events : Z;
  cycle_count_delta : Z;
  exiting : bool;
  cfg : config;
  product : Z;
  asic_user_flags : Z;
  sched : sched_state;
  mem : memory;
  flash : Flash;
  host : Host
}.

Definition with_arm (a : arm_state) (s : emu_state) : emu_state :=
  {| arm := a; cpu_events := cpu_events s; cycle_count_delta := cycle_count_delta s;
     exiting := exiting s; cfg := cfg s; product := product s;
     asic_user_flags := asic_user_flags s; sched := sched s; mem := mem s;
     flash := flash s; host := host s |}.

Definition with_cpu_events (e : Z) (s : emu_state) : emu_state :=
  {| arm := arm s; cpu_events := e; cycle_count_delta := cycle_count_delta s;
     exiting := exiting s; cfg := cfg s; product := product s;
     asic_user_flags := asic_user_flags s; sched := sched s; mem := mem s;
     flash := flash s; host := host s |}.

Definition with_cycle_count_delta (d : Z) (s : emu_state) : emu_state :=
  {| arm := arm s; cpu_events := cpu_events s; cycle_count_delta := d;
     exiting := exiting s; cfg := cfg s; product := product s;
     asic_user_flags := asic_user_flags s; sched := sched s; mem := mem s;
     flash := flash s; host := host s |}.

Definition with_exiting (b : bool) (s : emu_state) : emu_state :=
  {| arm := arm s; cpu_events := cpu_events s; cycle_count_delta := cycle_count_delta s;
     exiting := b; cfg := cfg s; product := product s;
     asic_user_flags := asic_user_flags s; sched := sched s; mem := mem s;
     flash := flash s; host := host s |}.

Definition with_settings (p f : Z) (s : emu_state) : emu_state :=
  {| arm := arm s; cpu_events := cpu_events s; cycle_count_delta := cycle_count_delta s;
     exiting := exiting s; cfg := cfg s; product := p;
     asic_user_flags := f; sched := sched s; mem := mem s;
     flash := flash s; host := host s |}.

Definition with_sched (sc : sched_state) (s : emu_state) : emu_state :=
  {| arm := arm s; cpu_events := cpu_events s; cycle_count_delta := cycle_count_delta s;
     exiting := exiting s; cfg := cfg s; product := product s;
     asic_user_flags := asic_user_flags s; sched := sc; mem := mem s;
     flash := flash s; host := host s |}.

Definition with_mem (m : memory) (s : emu_state) : emu_state :=
  {| arm := arm s; cpu_events := cpu_events s; cycle_count_delta := cycle_count_delta s;
     exiting := exiting s; cfg := cfg s; product := product s;
     asic_user_flags := asic_user_flags s; sched := sched s; mem := m;
     flash := flash s; host := host s |}.

Definition with_flash (f : Flash) (s : emu_state) : emu_state :=
  {| arm := arm s; cpu_events := cpu_events s; cycle_count_delta := cycle_count_delta s;
     exiting := exiting s; cfg := cfg s; product := product s;
     asic_user_flags := asic_user_flags s; sched := sched s; mem := mem s;
     flash := f; host := host s |}.

Definition with_host (h : Host) (s : emu_state) : emu_state :=
  {| arm := arm s; cpu_events := cpu_events s; cycle_count_delta := cycle_count_delta s;
     exiting := exiting s; cfg := cfg s; product := product s;
     asic_user_flags := asic_user_flags s; sched := sched s; mem := mem s;
     flash := flash s; host := h |}.

Definition with_ram (r : Z -> Z) (m : memory) : memory :=
  {| rom := rom m; rom_flags := rom_flags m; ram := r; ram_size := ram_size m;
     periph := periph m |}.

Definition with_rom (r fl : Z -> Z) (m : memory) : memory :=
  {| rom := r; rom_flags := fl; ram := ram m; ram_size := ram_size m;
     periph := periph m |}.

(** [arm.reg[15]] *)
Definition pc (s : emu_state) : Z := reg (arm s) 15%nat.

Definition set_pc (v : Z) (s : emu_state) : emu_state :=
  with_arm {| reg := upd (reg (arm s)) 15%nat v; cpsr_low28 := cpsr_low28 (arm s);
              control := control (arm s); arm_rest := arm_rest (arm s) |} s.

(** [sched.items[i].clock = c; sched.items[i].proc = p;] *)
Definition arm_slot (i : nat) (c : Z) (p : sched_proc) (sc : sched_state) : sched_state :=
  {| items := upd (items sc) i
       {| clock := c; proc := Some p; item_rest := item_rest (items sc i) |};
     sched_rest := sched_rest sc |}.

(** How a call into the instruction executor or the scheduler ends: it
    returns, or it reaches [error(fmt, ...)] in some state. *)
Inductive ctl :=
| Normal (s : emu_state)
| Fault (msg : string) (s : emu_state).


Context {Hd : Header}.

(** ** The collaborators

    Functions of the other translation units that [emu.cpp] calls. Each
    one receives the part of the state that its subsystem owns; the
    instruction executor, the scheduler's dispatch of callbacks, the
    debugger and what the throttle callback polls receive the whole
    machine state. *)
Class Collaborators : Type := {
  (* sched.c *)
  sched_reset : sched_state -> sched_state;
  sched_update_next_event : Z -> sched_state -> sched_state * Z;
  sched_process_pending_events : emu_state -> ctl;
  event_repeat : nat -> Z -> emu_state -> emu_state;
  sched_resume : emu_snapshot -> sched_state -> bool * sched_state;
  sched_suspend : sched_state -> list Z -> bool * list Z;
  (* cpu.c, the interpreter and the translator *)
  cpu_exception : Z -> emu_state -> emu_state;
  cpu_arm_loop : emu_state -> ctl;
  cpu_thumb_loop : emu_state -> ctl;
  cpu_resume : emu_snapshot -> arm_state * Z -> bool * (arm_state * Z);
  cpu_suspend : arm_state * Z -> list Z -> bool * list Z;
  (* mem.c *)
  memory_reset : memory -> memory;
  memory_initialize : Z -> memory -> bool * memory;
  memory_deinitialize : memory -> memory;
  memory_resume : emu_snapshot -> memory -> bool * memory;
  memory_suspend : memory -> list Z -> bool * list Z;
  (* flash.c *)
  flash_open : list ascii -> Flash -> bool * Flash;
  flash_close : Flash -> Flash;
  flash_read_settings : Flash -> bool * (Z * Z * Z);
  flash_set_bootorder : Z -> Flash -> Flash;
  flash_resume : emu_snapshot -> Flash -> bool * Flash;
  flash_suspend : Flash -> list Z -> bool * list Z;
  flash_suspend_flexsize : Flash -> Z;
  (* debugger, stubs, caches, link, front end *)
  debugger : Z -> emu_state -> emu_state;
  gdbstub_reset : Host -> Host;
  gdbstub_init : Z -> Host -> Host;
  gdbstub_quit : Host -> Host;
  gdbstub_recv : emu_state -> emu_state;
  rdebug_bind : Z -> Host -> Host;
  rdebug_quit : Host -> Host;
  rdebug_recv : emu_state -> emu_state;
  close_debugger_input : Host -> Host;
  translate_init : Host -> Host;
  translate_deinit : Host -> Host;
  addr_cache_init : Host -> Host;
  addr_cache_flush : Host -> Host;
  flush_translations : Host -> Host;
  throttle_timer_on : Host -> Host;
  usblink_timer : emu_state -> emu_state;
  usblink_queue_do : emu_state -> emu_state;
  gui_getchar : Host -> Z * Host;
  serial_byte_in : Z -> emu_state -> emu_state;
  gui_do_stuff : emu_state -> emu_state;
  (* std::chrono::duration_cast<microseconds> on the host clock's ticks *)
  to_microseconds : Z -> Z
}.

Context {Co : Collaborators}.

(** ** [error]

    [error] is declared [noreturn]: it ends by a jump to the checkpoint
    [restart_after_exception], so its model yields the state in which
    control lands there, and what was reported on the way. *)
Definition error (msg : string) (s : emu_state) : emu_state * list event :=
  let s1 := debugger DBG_EXCEPTION s in
  (with_cpu_events (Z.lor (cpu_events s1) EVENT_RESET) s1,
   [EvDebugPrintf "Error" (pc s); EvDebugMessage msg; EvDebugger DBG_EXCEPTION]).

(** [warn] returns to its caller. *)
Definition warn (msg : string) (s : emu_state) : emu_state * list event :=
  if debug_on_warn (cfg s)
  then (debugger DBG_EXCEPTION s,
        [EvDebugPrintf "Warning" (pc s); EvDebugMessage msg; EvDebugger DBG_EXCEPTION])
  else (s, [EvDebugPrintf "Warning" (pc s); EvDebugMessage msg]).

(** [exec_hack]: the result and the state it leaves. *)
Definition exec_hack (s : emu_state) : Z * emu_state * list event :=
  if pc s =? 0x10040
  then let s := set_pc (reg (arm s) 14%nat) s in
       let '(s, out) := warn "BOOT1 is required to run this version of BOOT2." s in
       (1, s, out)
  else (0, s, []).

(** ** [throttle_interval_event] *)

(** The function's [static] locals. [prev] is initialised by the first
    call, with that call's clock reading. *)
Record throttle_statics := {
  intervals : Z;
  prev_intervals : Z;
  prev : option Z;
  speed : float
}.

Definition throttle_statics_init : throttle_statics :=
  {| intervals := 0; prev_intervals := 0; prev := None; speed := 1%float |}.

(** [interval_end] is the reading of the host clock taken by the call. *)
Definition throttle_interval_event (index : nat) (interval_end : Z)
    (t : throttle_statics) (s : emu_state)
  : throttle_statics * emu_state * list event :=
  let s := event_repeat index (27000000 / 100) s in
  let n := sint32 (intervals t + 1) in
  let s := usblink_timer s in
  let s := usblink_queue_do s in
  let (c, h) := gui_getchar (host s) in
  let s := with_host h s in
  let s := if c =? -1 then s else serial_byte_in (c mod 256) s in
  let s := gdbstub_recv s in
  let s := rdebug_recv s in
  let prev0 := match prev t with Some p => p | None => interval_end end in
  let time := to_microseconds (interval_end - prev0) in
  let '(t', out) :=
    if 500000 <=? time
    then
      let sp := throttle_speed (sint32 (n - prev_intervals t)) time in
      ({| intervals := n; prev_intervals := n; prev := Some interval_end; speed := sp |},
       [EvShowSpeed sp])
    else
      ({| intervals := n; prev_intervals := prev_intervals t; prev := Some prev0;
          speed := speed t |}, [])
  in
  let s := gui_do_stuff s in
  (t', s,
   out ++ [EvDoStuff] ++
   (if negb (turbo_mode (cfg s)) && PrimFloat.ltb 0x1.6666666666666p-1%float (speed t')
    then [EvThrottleWait] else [])).


(** ** [emu_loop] *)

(** The places of [emu_loop] between which control moves. *)
Inductive point :=
| at_entry (reset : bool)   (* the call emu_loop(reset) *)
| at_reset                  (* the label reset: *)
| at_restart                (* after the if (reset) block *)
| at_checkpoint             (* past __builtin_setjmp: the test of while (!exiting) *)
| at_inner                  (* the test of the inner while *)
| at_return.                (* emu_loop has returned *)

(** The block under the label [reset:]. *)
Definition reset_block (s : emu_state) : emu_state * list event :=
  let s := with_mem (with_ram (fun _ => 0) (mem s)) s in
  let s := with_arm (arm_zero (arm s)) s in
  let s := with_arm {| reg := reg (arm s); cpsr_low28 := cpsr_low28 (arm s);
                       control := 0x00050078; arm_rest := arm_rest (arm s) |} s in
  let s := with_arm {| reg := reg (arm s); cpsr_low28 := Z.lor MODE_SVC 0xC0;
                       control := control (arm s); arm_rest := arm_rest (arm s) |} s in
  let s := with_cpu_events (Z.land (cpu_events s) EVENT_DEBUG_STEP) s in
  let s := with_sched (sched_reset (sched s)) s in
  let s := with_sched
             (arm_slot SCHED_THROTTLE CLOCK_27M throttle_interval_event_proc (sched s)) s in
  let s := with_mem (memory_reset (mem s)) s in
  (s, [EvSchedReset; EvMemoryReset]).

(** From [gdbstub_reset()] to the checkpoint. *)
Definition restart_block (s : emu_state) : emu_state :=
  let s := with_host (gdbstub_reset (host s)) s in
  let s := with_host (addr_cache_flush (host s)) s in
  let s := with_host (flush_translations (host s)) s in
  let '(sc, d) := sched_update_next_event 0 (sched s) in
  let s := with_cycle_count_delta d (with_sched sc s) in
  with_exiting false s.

(** Where a collaborator's call leaves the loop: at the next statement,
    or, through [error], at the checkpoint. *)
Definition resume_at (next : point) (r : ctl) : point * emu_state * list event :=
  match r with
  | Normal s => (next, s, [])
  | Fault msg s => let '(s', out) := error msg s in (at_checkpoint, s', out)
  end.

(** The interrupt entry of the inner loop's body: the state handed to
    [cpu_exception], and the vector. *)
Definition interrupt_entry (s : emu_state) : emu_state * Z :=
  let s := if has_bits (cpsr_low28 (arm s)) 0x20
           then set_pc (Z.land (pc s) (not32 1)) s
           else set_pc (Z.land (pc s) (not32 3)) s in
  let s := if has_bits (cpu_events s) EVENT_WAITING
           then set_pc (wrap32 (pc s + 4)) s else s in
  let s := set_pc (wrap32 (pc s + 4)) s in
  (s, if has_bits (cpu_events s) EVENT_FIQ then EX_FIQ else EX_IRQ).

(** The body of the inner loop below the reset test, up to the state
    handed to the executor. *)
Definition deliver_interrupts (s : emu_state) : emu_state * list event :=
  let '(s, out) :=
    if has_bits (cpu_events s) (Z.lor EVENT_FIQ EVENT_IRQ)
    then let '(s1, vec) := interrupt_entry s in (cpu_exception vec s1, [EvException vec])
    else (s, []) in
  (with_cpu_events (Z.land (cpu_events s) (not32 EVENT_WAITING)) s, out).

(** One pass through the inner loop's body. *)
Definition inner_body (s : emu_state) : point * emu_state * list event :=
  if has_bits (cpu_events s) EVENT_RESET
  then (at_reset, s, [EvStatus "Reset"])
  else
    let '(s, out) := deliver_interrupts s in
    let m := if has_bits (cpsr_low28 (arm s)) 0x20 then ThumbMode else ArmMode in
    let '(p, s', out') :=
      resume_at at_inner (match m with
                     | ThumbMode => cpu_thumb_loop s
                     | ArmMode => cpu_arm_loop s
                     end) in
    (p, s', out ++ [EvDispatch m] ++ out').

(** One move of [emu_loop]. *)
Definition step (p : point) (s : emu_state) : point * emu_state * list event :=
  match p with
  | at_entry true => (at_reset, s, [])
  | at_entry false => (at_restart, s, [])
  | at_reset => let '(s', out) := reset_block s in (at_restart, s', out)
  | at_restart => (at_checkpoint, restart_block s, [])
  | at_checkpoint =>
      if exiting s then (at_return, s, [])
      else let '(p', s', out) := resume_at at_inner (sched_process_pending_events s) in
           (p', s', EvSchedProcess :: out)
  | at_inner =>
      if negb (exiting s) && (cycle_count_delta s <? 0)
      then inner_body s
      else (at_checkpoint, s, [])
  | at_return => (at_return, s, [])
  end.

(** [emu_loop] run for at most [fuel] moves. *)
Fixpoint run (fuel : nat) (p : point) (s : emu_state) : point * emu_state * list event :=
  match fuel with
  | O => (p, s, [])
  | S fuel' =>
      match p with
      | at_return => (p, s, [])
      | _ => let '(p1, s1, out1) := step p s in
             let '(p2, s2, out2) := run fuel' p1 s1 in
             (p2, s2, out1 ++ out2)
      end
  end.

Definition emu_loop (fuel : nat) (reset : bool) (s : emu_state) :=
  run fuel (at_entry reset) s.

(** ** Sequencing of the lifecycle functions

    [emu_start] and [emu_cleanup] thread the machine state through a
    sequence of calls and report what they called. *)
Definition M (A : Type) : Type := emu_state -> A * emu_state * list event.

Definition ret {A : Type} (a : A) : M A := fun s => (a, s, []).

Definition bind {A B : Type} (m : M A) (k : A -> M B) : M B :=
  fun s => let '(a, s1, o1) := m s in
           let '(b, s2, o2) := k a s1 in
           (b, s2, o1 ++ o2).

Notation "x <- m ;; k" := (bind m (fun x => k))
  (at level 61, m at next level, right associativity).
Notation "m ;; k" := (bind m (fun _ => k))
  (at level 61, right associativity).

Definition emit (e : event) : M unit := fun s => (tt, s, [e]).
Definition modify (f : emu_state -> emu_state) : M unit := fun s => (tt, f s, []).
Definition gets {A : Type} (f : emu_state -> A) : M A := fun s => (f s, s, []).
Definition on_host (f : Host -> Host) : M unit :=
  modify (fun s => with_host (f (host s)) s).
Definition when (b : bool) (m : M unit) : M unit := if b then m else ret tt.

(** ** [emu_cleanup] *)
Definition emu_cleanup : M unit :=
  modify (with_exiting true) ;;
  on_host close_debugger_input ;;
  on_host translate_deinit ;;
  emit EvMemoryReset ;;
  modify (fun s => with_mem (memory_reset (mem s)) s) ;;
  emit EvMemoryDeinitialize ;;
  modify (fun s => with_mem (memory_deinitialize (mem s)) s) ;;
  emit EvFlashClose ;;
  modify (fun s => with_flash (flash_close (flash s)) s) ;;
  on_host gdbstub_quit ;;
  on_host rdebug_quit.

(** ** [emu_start] *)

(** A file as [emu_start] sees it: its size, and what the mapping shows
    through [struct emu_snapshot]. *)
Record snapshot_file := {
  file_size : Z;
  file_image : emu_snapshot
}.

(** The host's answers to the system calls of [emu_start]. *)
Record start_host := {
  open_snapshot : list ascii -> option snapshot_file;  (* open, lseek *)
  mmap_ok : bool;                                      (* mmap != MAP_FAILED *)
  open_boot1 : list ascii -> option (list Z)           (* fopen(path, "rb") *)
}.

Definition call_flash_resume (snap : emu_snapshot) : M bool :=
  emit EvFlashResume ;;
  fun s => let '(b, f) := flash_resume snap (flash s) in (b, with_flash f s, []).

(** [flash_read_settings(&sdram_size, &product, &asic_user_flags)];
    the value is the result and [sdram_size]. *)
Definition call_flash_read_settings : M (bool * Z) :=
  emit EvFlashReadSettings ;;
  fun s => let '(b, (sd, p, a)) := flash_read_settings (flash s) in
           ((b, sd), with_settings p a s, []).

Definition call_cpu_resume (snap : emu_snapshot) : M bool :=
  emit EvCpuResume ;;
  fun s => let '(b, (a, e)) := cpu_resume snap (arm s, cpu_events s) in
           (b, with_cpu_events e (with_arm a s), []).

Definition call_memory_resume (snap : emu_snapshot) : M bool :=
  emit EvMemoryResume ;;
  fun s => let '(b, m) := memory_resume snap (mem s) in (b, with_mem m s, []).

Definition call_sched_resume (snap : emu_snapshot) : M bool :=
  emit EvSchedResume ;;
  fun s => let '(b, sc) := sched_resume snap (sched s) in (b, with_sched sc s, []).

(** The condition of the [if] under "Resume components", negated: true
    when every disjunct is false. The disjuncts are evaluated left to
    right and the first true one ends the evaluation. *)
Definition resume_components (size : Z) (snap : emu_snapshot) : M bool :=
  if size <? sizeof_emu_snapshot then ret false else
  emit EvReadSig ;;
  if negb (sig snap =? SNAPSHOT_SIG) then ret false else
  ok <- call_flash_resume snap ;;
  if negb ok then ret false else
  r <- call_flash_read_settings ;;
  if negb (fst r) then ret false else
  ok <- call_cpu_resume snap ;;
  if negb ok then ret false else
  ok <- call_memory_resume snap ;;
  if negb ok then ret false else
  call_sched_resume snap.

Definition in_rom (a : Z) : bool := (0 <=? a) && (a <? 0x80000).

(** [memset(rom, -1, 0x80000)] and the loop that flags every word. *)
Definition rom_erase (m : memory) : memory :=
  with_rom (fun a => if in_rom a then 255 else rom m a)
           (fun a => if in_rom a && (a mod 4 =? 0) then RF_READ_ONLY else rom_flags m a)
           m.

(** [fread(rom, 1, 0x80000, f)] *)
Definition rom_load (bytes : list Z) (m : memory) : memory :=
  with_rom (fun a => if in_rom a && (a <? Z.of_nat (List.length bytes))
                     then nth (Z.to_nat a) bytes 0 else rom m a)
           (rom_flags m) m.

(** The block under [if (path_boot1)]: false when the ROM image cannot
    be opened. *)
Definition load_boot1 (h : start_host) : M bool :=
  boot1 <- gets (fun s => path_boot1 (cfg s)) ;;
  match boot1 with
  | Some path =>
      match open_boot1 h path with
      | None => emit (EvPerror path) ;; ret false
      | Some bytes =>
          modify (fun s => with_mem (rom_load bytes (mem s)) s) ;; ret true
      end
  | None => ret true
  end.

(** From [uint8_t *rom = mem_areas[0].ptr] to the end of [emu_start]. *)
Definition start_common (port_gdb port_rdbg : Z) (h : start_host) : M bool :=
  modify (fun s => with_mem (rom_erase (mem s)) s) ;;
  loaded <- load_boot1 h ;;
  if negb loaded then ret false else
  on_host translate_init ;;
  on_host addr_cache_init ;;
  on_host throttle_timer_on ;;
  when (negb (port_gdb =? 0)) (on_host (gdbstub_init port_gdb)) ;;
  when (negb (port_rdbg =? 0)) (on_host (rdebug_bind port_rdbg)) ;;
  ret true.

Definition emu_start (port_gdb port_rdbg : Z) (snapshot_file : option (list ascii))
    (h : start_host) : M bool :=
  dbg <- gets (fun s => debug_on_start (cfg s)) ;;
  when dbg (modify (fun s => with_cpu_events (Z.lor (cpu_events s) EVENT_DEBUG_STEP) s)) ;;
  match snapshot_file with
  | Some path =>
      match open_snapshot h path with
      | None => ret false
      | Some f =>
          if negb (mmap_ok h) then ret false else
          modify (fun s => with_sched
                    (arm_slot SCHED_THROTTLE CLOCK_27M throttle_interval_event_proc (sched s)) s) ;;
          ok <- resume_components (file_size f) (file_image f) ;;
          if negb ok
          then emu_cleanup ;; emit EvMunmap ;; ret false
          else emit EvMunmap ;; start_common port_gdb port_rdbg h
      end
  | None =>
      pf <- gets (fun s => path_flash (cfg s)) ;;
      match pf with
      | None => ret false
      | Some path =>
          opened <- (fun s => let '(b, f) := flash_open path (flash s) in
                              (b, with_flash f s, [])) ;;
          if negb opened then ret false else
          r <- call_flash_read_settings ;;
          bo <- gets (fun s => boot_order (cfg s)) ;;
          modify (fun s => with_flash (flash_set_bootorder bo (flash s)) s) ;;
          inited <- (fun s => let '(b, m) := memory_initialize (snd r) (mem s) in
                              (b, with_mem m s, [])) ;;
          if negb inited then ret false else
          start_common port_gdb port_rdbg h
      end
  end.

(** ** [emu_suspend] *)

Definition is_nul (c : ascii) : bool := Ascii.eqb c Ascii.zero.

(** [strncpy(dst, src, n)]: exactly [n] characters are stored, those of
    [src] up to its terminator and then NUL characters; [dst] beyond [n]
    is not touched. [src] is the string without its terminator. *)
Fixpoint strncpy (dst src : list ascii) (n : nat) : list ascii :=
  match n, dst with
  | O, _ => dst
  | S _, [] => []
  | S n', _ :: dst' =>
      match src with
      | [] => Ascii.zero :: strncpy dst' [] n'
      | c :: src' =>
          if is_nul c then Ascii.zero :: strncpy dst' [] n'
          else c :: strncpy dst' src' n'
      end
  end.

(** A character array holds a C string when a NUL occurs in it. *)
Definition null_terminated (field : list ascii) : bool := existsb is_nul field.

(** The members of [struct emu_snapshot]. *)
Inductive snap_field :=
| FSig | FProduct | FAsicUserFlags | FPathBoot1 | FPathFlash
| FFlash | FCpu | FSched | FMem.

Definition store_ids (p a : Z) (i : emu_snapshot) : emu_snapshot :=
  {| sig := sig i; snap_product := p; snap_asic_user_flags := a;
     snap_path_boot1 := snap_path_boot1 i; snap_path_flash := snap_path_flash i;
     snap_flash := snap_flash i; snap_cpu := snap_cpu i;
     snap_sched := snap_sched i; snap_mem := snap_mem i |}.

Definition store_paths (b f : list ascii) (i : emu_snapshot) : emu_snapshot :=
  {| sig := sig i; snap_product := snap_product i;
     snap_asic_user_flags := snap_asic_user_flags i;
     snap_path_boot1 := b; snap_path_flash := f;
     snap_flash := snap_flash i; snap_cpu := snap_cpu i;
     snap_sched := snap_sched i; snap_mem := snap_mem i |}.

Definition store_regions (fl c sc m : list Z) (i : emu_snapshot) : emu_snapshot :=
  {| sig := sig i; snap_product := snap_product i;
     snap_asic_user_flags := snap_asic_user_flags i;
     snap_path_boot1 := snap_path_boot1 i; snap_path_flash := snap_path_flash i;
     snap_flash := fl; snap_cpu := c; snap_sched := sc; snap_mem := m |}.

Definition store_sig (v : Z) (i : emu_snapshot) : emu_snapshot :=
  {| sig := v; snap_product := snap_product i;
     snap_asic_user_flags := snap_asic_user_flags i;
     snap_path_boot1 := snap_path_boot1 i; snap_path_flash := snap_path_flash i;
     snap_flash := snap_flash i; snap_cpu := snap_cpu i;
     snap_sched := snap_sched i; snap_mem := snap_mem i |}.

(** The host's answers to the system calls of [emu_suspend].
    [mapped_before] is what the mapping shows before the first store:
    the bytes the file already had (it is opened with [O_CREAT] alone and
    resized by [ftruncate]), zeros where it is new or was extended. *)
Record suspend_host := {
  open_rw_ok : bool;              (* open(file, O_RDWR | O_CREAT, 0620) != -1 *)
  ftruncate_ok : Z -> bool;       (* ftruncate(fp, size) == 0 *)
  mmap_rw_ok : Z -> bool;         (* mmap(NULL, size, ...) != MAP_FAILED *)
  mapped_before : emu_snapshot
}.

(** How [emu_suspend] ends: with a result, or in a store through the
    pointer to a mapping that was already removed, or in a read of a
    null path. *)
Inductive outcome :=
| Returns (b : bool)
| StoreAfterMunmap
| NullPath.

Record suspend_result := {
  result : outcome;
  file_after : option emu_snapshot;  (* the mapped file; None when nothing was mapped *)
  stores : list snap_field           (* the members stored, in program order *)
}.

(** The condition [!flash_suspend(snapshot) || !cpu_suspend(snapshot) ||
    !sched_suspend(snapshot) || !memory_suspend(snapshot)], negated,
    with the image each call leaves and the members that were stored. *)
Definition suspend_components (s : emu_state) (i : emu_snapshot)
  : bool * emu_snapshot * list snap_field :=
  let '(ok, fl) := flash_suspend (flash s) (snap_flash i) in
  let i := store_regions fl (snap_cpu i) (snap_sched i) (snap_mem i) i in
  if negb ok then (false, i, [FFlash]) else
  let '(ok, c) := cpu_suspend (arm s, cpu_events s) (snap_cpu i) in
  let i := store_regions (snap_flash i) c (snap_sched i) (snap_mem i) i in
  if negb ok then (false, i, [FFlash; FCpu]) else
  let '(ok, sc) := sched_suspend (sched s) (snap_sched i) in
  let i := store_regions (snap_flash i) (snap_cpu i) sc (snap_mem i) i in
  if negb ok then (false, i, [FFlash; FCpu; FSched]) else
  let '(ok, m) := memory_suspend (mem s) (snap_mem i) in
  let i := store_regions (snap_flash i) (snap_cpu i) (snap_sched i) m i in
  (ok, i, [FFlash; FCpu; FSched; FMem]).

(** [sizeof(emu_snapshot) + flash_suspend_flexsize()] *)
Definition suspend_size (s : emu_state) : Z :=
  sizeof_emu_snapshot + flash_suspend_flexsize (flash s).

Definition emu_suspend (h : suspend_host) (s : emu_state) : suspend_result :=
  if negb (open_rw_ok h) then
    {| result := Returns false; file_after := None; stores := [] |}
  else if negb (ftruncate_ok h (suspend_size s)) then
    {| result := Returns false; file_after := None; stores := [] |}
  else if negb (mmap_rw_ok h (suspend_size s)) then
    {| result := Returns false; file_after := None; stores := [] |}
  else
    let i := store_ids (product s) (asic_user_flags s) (mapped_before h) in
    match path_boot1 (cfg s) with
    | None => {| result := NullPath; file_after := Some i;
                 stores := [FProduct; FAsicUserFlags] |}
    | Some boot1 =>
        let i := store_paths
                   (strncpy (snap_path_boot1 i) boot1 (sizeof_path_boot1 - 1)%nat)
                   (snap_path_flash i) i in
        match path_flash (cfg s) with
        | None => {| result := NullPath; file_after := Some i;
                     stores := [FProduct; FAsicUserFlags; FPathBoot1] |}
        | Some pflash =>
            let i := store_paths (snap_path_boot1 i)
                       (strncpy (snap_path_flash i) pflash (sizeof_path_flash - 1)%nat) i in
            let '(ok, i, st) := suspend_components s i in
            let st := [FProduct; FAsicUserFlags; FPathBoot1; FPathFlash] ++ st in
            if negb ok then
              (* munmap(snapshot, size); close(fp); and no return:
                 the store to snapshot->sig below comes next *)
              {| result := StoreAfterMunmap; file_after := Some i; stores := st |}
            else
              {| result := Returns true;
                 file_after := Some (store_sig SNAPSHOT_SIG i);
                 stores := st ++ [FSig] |}
        end
    end.

(** * Properties *)

(** ** Bit-mask facts *)




Lemma land_land_disjoint (x d m : Z) : Z.land d m = 0 -> Z.land (Z.land x d) m = 0.
Proof. intro Hdm. now rewrite <- Z.land_assoc, Hdm, Z.land_0_r. Qed.

(** The masks of the interrupt entry clear the low address bits: the
    masked address is a multiple of 2 (Thumb) or of 4 (ARM). *)
Lemma mask_thumb_aligned (p : Z) : Z.land p (not32 1) mod 2 = 0.
Proof.
  change 2 with (2 ^ 1). rewrite <- Z.land_ones by lia.
  rewrite <- Z.land_assoc.
  change (Z.land (not32 1) (Z.ones 1)) with 0. apply Z.land_0_r.
Qed.

Lemma mask_arm_aligned (p : Z) : Z.land p (not32 3) mod 4 = 0.
Proof.
  change 4 with (2 ^ 2). rewrite <- Z.land_ones by lia.
  rewrite <- Z.land_assoc.
  change (Z.land (not32 3) (Z.ones 2)) with 0. apply Z.land_0_r.
Qed.

(** ** The reset path *)

Lemma step_at_reset (s : emu_state) :
  step at_reset s = (at_restart, fst (reset_block s), snd (reset_block s)).
Proof. reflexivity. Qed.

Lemma restart_block_cpu (s : emu_state) :
  arm (restart_block s) = arm s /\ cpu_events (restart_block s) = cpu_events s.
Proof.
  unfold restart_block.
  destruct (sched_update_next_event 0 (sched (with_host _ _))) as [sc d].
  split; reflexivity.
Qed.

Lemma reset_pending_goes_to_reset (s : emu_state) :
  exiting s = false -> cycle_count_delta s < 0 ->
  has_bits (cpu_events s) EVENT_RESET = true ->
  step at_inner s = (at_reset, s, [EvStatus "Reset"]).
Proof.
  intros Hex Hneg Hr. cbn [step]. rewrite Hex. cbn [negb andb].
  apply Z.ltb_lt in Hneg. rewrite Hneg. unfold inner_body. now rewrite Hr.
Qed.

(** C4. Both ways into a reset (the call [emu_loop(true)] and a pending
    [EVENT_RESET] seen by the inner loop) lead to the label [reset:], and
    the block under it leaves the machine in its power-on state: no FIQ,
    IRQ, wait or reset bit is pending, the program counter is 0, the
    control register is 0x00050078, the status register is
    [MODE_SVC | 0xC0], and the throttle slot carries its clock and its
    callback. The CPU part of this still holds at the checkpoint through
    which the loop is entered again. *)
Theorem reset_establishes_power_on_state (s : emu_state) :
  event_bits_disjoint ->
  let s' := fst (reset_block s) in
  let s'' := restart_block s' in
  step (at_entry true) s = (at_reset, s, []) /\
  (exiting s = false -> cycle_count_delta s < 0 ->
   has_bits (cpu_events s) EVENT_RESET = true ->
   step at_inner s = (at_reset, s, [EvStatus "Reset"])) /\
  step at_reset s = (at_restart, s', [EvSchedReset; EvMemoryReset]) /\
  step at_restart s' = (at_checkpoint, s'', []) /\
  (forall m, In m [EVENT_FIQ; EVENT_IRQ; EVENT_WAITING; EVENT_RESET] ->
             Z.land (cpu_events s') m = 0 /\ Z.land (cpu_events s'') m = 0) /\
  (pc s' = 0 /\ pc s'' = 0) /\
  (control (arm s') = 0x00050078 /\ control (arm s'') = 0x00050078) /\
  (cpsr_low28 (arm s') = Z.lor MODE_SVC 0xC0 /\
   cpsr_low28 (arm s'') = Z.lor MODE_SVC 0xC0) /\
  clock (items (sched s') SCHED_THROTTLE) = CLOCK_27M /\
  proc (items (sched s') SCHED_THROTTLE) = Some throttle_interval_event_proc.
Proof.
  intros (Hirq & Hfiq & Hwait & Hreset) s' s''.
  destruct (restart_block_cpu s') as [Harm Hev].
  assert (Hcpu : cpu_events s' = Z.land (cpu_events s) EVENT_DEBUG_STEP) by reflexivity.
  repeat split; try reflexivity.
  - apply reset_pending_goes_to_reset.
  - rewrite Hcpu. destruct H as [<- | [<- | [<- | [<- | []]]]];
      now apply land_land_disjoint.
  - subst s''. rewrite Hev, Hcpu. destruct H as [<- | [<- | [<- | [<- | []]]]];
      now apply land_land_disjoint.
  - unfold pc. subst s''. now rewrite Harm.
  - subst s''. now rewrite Harm.
  - subst s''. now rewrite Harm.
  - subst s'. cbn. now rewrite upd_same.
  - subst s'. cbn. now rewrite upd_same.
Qed.

(** C10. The reset block keeps of the pending-event word exactly the
    single-step request: the word becomes [cpu_events & EVENT_DEBUG_STEP],
    so every bit outside [EVENT_DEBUG_STEP] is clear afterwards and the
    bits of [EVENT_DEBUG_STEP] have the value they had before; nothing on
    the way to the checkpoint changes the word again. *)
Theorem reset_keeps_only_debug_step (s : emu_state) :
  let s' := fst (reset_block s) in
  cpu_events s' = Z.land (cpu_events s) EVENT_DEBUG_STEP /\
  (forall i, Z.testbit EVENT_DEBUG_STEP i = false ->
             Z.testbit (cpu_events s') i = false) /\
  (forall i, Z.testbit EVENT_DEBUG_STEP i = true ->
             Z.testbit (cpu_events s') i = Z.testbit (cpu_events s) i) /\
  Z.land (cpu_events s') EVENT_DEBUG_STEP = Z.land (cpu_events s) EVENT_DEBUG_STEP /\
  cpu_events (restart_block s') = cpu_events s'.
Proof.
  intro s'.
  assert (Hcpu : cpu_events s' = Z.land (cpu_events s) EVENT_DEBUG_STEP) by reflexivity.
  split; [exact Hcpu |].
  split; [| split; [| split]].
  - intros i Hi. rewrite Hcpu, Z.land_spec, Hi. apply Bool.andb_false_r.
  - intros i Hi. rewrite Hcpu, Z.land_spec, Hi. apply Bool.andb_true_r.
  - rewrite Hcpu, <- Z.land_assoc. now rewrite Z.land_diag.
  - apply restart_block_cpu.
Qed.

(** ** Interrupt entry *)

Lemma pc_set_pc (v : Z) (s : emu_state) : pc (set_pc v s) = v.
Proof. unfold pc, set_pc, with_arm. cbn [arm reg]. apply upd_same. Qed.

Lemma reg_set_pc (v : Z) (s : emu_state) (i : nat) :
  i <> 15%nat -> reg (arm (set_pc v s)) i = reg (arm s) i.
Proof. intro Hi. unfold set_pc, with_arm. cbn [arm reg]. now apply upd_other. Qed.



(** ** The fault path *)

Definition is_dispatch (e : event) : bool :=
  match e with
  | EvDispatch _ | EvException _ => true
  | _ => false
  end.



Section FaultPath.

(** The callbacks that the scheduler fires may raise interrupts; they do
    not withdraw a pending reset. *)
Hypothesis sched_keeps_reset : forall t t',
  sched_process_pending_events t = Normal t' ->
  has_bits (cpu_events t) EVENT_RESET = true ->
  has_bits (cpu_events t') EVENT_RESET = true.

Hypothesis reset_bit : EVENT_RESET <> 0.



End FaultPath.







(** ** Leaving the loop *)

(** C7, as the code has it. A set exiting flag ends the loop at the poll
    point that finds it: the test of the outer loop returns at once, the
    test of the inner loop falls through to it, and nothing is dispatched
    on the way. The flag is not kept across the entry of [emu_loop]: the
    statements before the checkpoint end in [exiting = false], so a
    request made before the loop is reached, or while a reset is on its
    way back to the checkpoint, is dropped. *)
Theorem exit_request_ends_loop_at_poll (s : emu_state) :
  exiting s = true ->
  (forall fuel, run (S fuel) at_checkpoint s = (at_return, s, [])) /\
  (forall fuel, run (S (S fuel)) at_inner s = (at_return, s, [])) /\
  (forall t, exiting (restart_block t) = false) /\
  (forall t, run 2 (at_entry false) t = (at_checkpoint, restart_block t, [])) /\
  (forall t, run 3 (at_entry true) t
             = (at_checkpoint, restart_block (fst (reset_block t)),
                [EvSchedReset; EvMemoryReset])).
Proof.
  intro Hex.
  assert (Hrestart : forall t, exiting (restart_block t) = false).
  { intro t. unfold restart_block.
    now destruct (sched_update_next_event 0 (sched (with_host _ _))) as [sc d]. }
  split; [| split; [| split; [exact Hrestart | split; reflexivity]]].
  - intro fuel. cbn [run step]. rewrite Hex. now destruct fuel.
  - intro fuel. cbn [run step]. rewrite Hex. cbn [negb andb run step].
    rewrite Hex. now destruct fuel.
Qed.

(** ** The throttle measurement *)

(** The window that a call of [throttle_interval_event] measures. *)
Definition measured_window (interval_end : Z) (t : throttle_statics) : Z :=
  to_microseconds
    (interval_end - match prev t with Some p => p | None => interval_end end).

Lemma throttle_speed_nominal : throttle_speed 50 500000 = 1%float.
Proof. reflexivity. Qed.

Lemma throttle_speed_ten_thousand : throttle_speed 10000 500000 = 200%float.
Proof. reflexivity. Qed.

(** C8, as the code has it. When the measured window is at least 500000
    microseconds, the call reports, and keeps as the current speed,
    [(double)10000 * increments / window], where [increments] counts the
    calls since the last report, this one included; the counters and the
    start of the window are moved up. With this formula 50 increments in
    500000 microseconds (the nominal 100 Hz) give 1.0, and 10000
    increments in the same window give 200.0. *)
Theorem throttle_reports_speed (index : nat) (interval_end : Z)
    (t : throttle_statics) (s : emu_state) :
  500000 <= measured_window interval_end t ->
  let n := sint32 (intervals t + 1) in
  let sp := throttle_speed (sint32 (n - prev_intervals t))
                           (measured_window interval_end t) in
  let r := throttle_interval_event index interval_end t s in
  speed (fst (fst r)) = sp /\
  intervals (fst (fst r)) = n /\
  prev_intervals (fst (fst r)) = n /\
  prev (fst (fst r)) = Some interval_end /\
  (exists out', snd r = EvShowSpeed sp :: EvDoStuff :: out') /\
  throttle_speed 50 500000 = 1%float /\
  throttle_speed 10000 500000 = 200%float.
Proof.
  intros Hwin n sp r.
  unfold measured_window in *. apply Z.leb_le in Hwin.
  subst r. unfold throttle_interval_event.
  destruct (gui_getchar _) as [c h].
  rewrite Hwin. cbn [fst snd speed intervals prev_intervals prev app].
  repeat (split; [reflexivity |]).
  split; [eexists; reflexivity |].
  split; [exact throttle_speed_nominal | exact throttle_speed_ten_thousand].
Qed.

(** ** Rejected snapshots *)

Definition is_resume_call (e : event) : bool :=
  match e with
  | EvFlashResume | EvFlashReadSettings | EvCpuResume | EvMemoryResume
  | EvSchedResume => true
  | _ => false
  end.

Lemma resume_components_rejects (size : Z) (snap : emu_snapshot) (s : emu_state) :
  size < sizeof_emu_snapshot \/ sig snap <> SNAPSHOT_SIG ->
  resume_components size snap s
  = (false, s, if size <? sizeof_emu_snapshot then [] else [EvReadSig]).
Proof.
  intro Hbad. unfold resume_components.
  destruct (size <? sizeof_emu_snapshot) eqn:Hsz; [reflexivity |].
  destruct Hbad as [Hlt | Hsig].
  - apply Z.ltb_ge in Hsz. lia.
  - apply Z.eqb_neq in Hsig. unfold bind, emit. rewrite Hsig. reflexivity.
Qed.

(** The state in which [emu_start] reaches "Resume components". *)
Definition before_resume (s : emu_state) : emu_state :=
  let s0 := if debug_on_start (cfg s)
            then with_cpu_events (Z.lor (cpu_events s) EVENT_DEBUG_STEP) s else s in
  with_sched (arm_slot SCHED_THROTTLE CLOCK_27M throttle_interval_event_proc (sched s0)) s0.

(** The state that [emu_cleanup] leaves. *)
Definition cleaned_up (s : emu_state) : emu_state := snd (fst (emu_cleanup s)).

Lemma emu_cleanup_run (s : emu_state) :
  emu_cleanup s
  = (tt, cleaned_up s, [EvMemoryReset; EvMemoryDeinitialize; EvFlashClose]).
Proof. reflexivity. Qed.

Lemma emu_start_rejected (port_gdb port_rdbg : Z) (path : list ascii)
    (h : start_host) (s : emu_state) (f : snapshot_file) :
  open_snapshot h path = Some f -> mmap_ok h = true ->
  file_size f < sizeof_emu_snapshot \/ sig (file_image f) <> SNAPSHOT_SIG ->
  emu_start port_gdb port_rdbg (Some path) h s
  = (false, cleaned_up (before_resume s),
     (if file_size f <? sizeof_emu_snapshot then [] else [EvReadSig])
     ++ [EvMemoryReset; EvMemoryDeinitialize; EvFlashClose; EvMunmap]).
Proof.
  intros Hopen Hmap Hbad.
  unfold emu_start, before_resume. rewrite Hopen, Hmap. cbn [negb].
  unfold bind, gets, when, modify, ret, emit.
  destruct (debug_on_start (cfg s));
    rewrite (resume_components_rejects _ _ Hbad); cbn [negb]; cbv beta;
    rewrite emu_cleanup_run;
    destruct (file_size f <? sizeof_emu_snapshot); reflexivity.
Qed.

(** C2. [emu_start] with a snapshot path returns false whenever the file
    is smaller than [struct emu_snapshot] or its signature is not
    0xCAFEBEEF; in both cases no flash, settings, CPU, memory or scheduler
    resume is called, and for a file smaller than the structure the
    signature is not read either. *)
Theorem bad_snapshot_is_rejected (port_gdb port_rdbg : Z) (path : list ascii)
    (h : start_host) (s : emu_state) :
  (forall f, open_snapshot h path = Some f ->
             file_size f < sizeof_emu_snapshot \/ sig (file_image f) <> SNAPSHOT_SIG) ->
  let r := emu_start port_gdb port_rdbg (Some path) h s in
  fst (fst r) = false /\
  (forall e, In e (snd r) -> is_resume_call e = false) /\
  (forall f, open_snapshot h path = Some f ->
             file_size f < sizeof_emu_snapshot -> ~ In EvReadSig (snd r)).
Proof.
  intros Hbad r.
  destruct (open_snapshot h path) as [f |] eqn:Hopen.
  - destruct (mmap_ok h) eqn:Hmap.
    + subst r. rewrite (@emu_start_rejected port_gdb port_rdbg path h s f Hopen Hmap (Hbad f eq_refl)).
      cbn [fst snd]. split; [reflexivity |]. split.
      * intros e He. destruct (file_size f <? sizeof_emu_snapshot); cbn in He;
          repeat (destruct He as [<- | He]; [reflexivity |]); destruct He.
      * intros f' Hf' Hlt. injection Hf' as <-.
        apply Z.ltb_lt in Hlt. rewrite Hlt. cbn.
        intros [He | [He | [He | [He | []]]]]; discriminate He.
    + subst r. unfold emu_start. rewrite Hopen, Hmap.
      unfold bind, gets. destruct (debug_on_start (cfg s)); cbn.
      * split; [reflexivity |]. split; [intros e [] | intros f' _ _ []].
      * split; [reflexivity |]. split; [intros e [] | intros f' _ _ []].
  - subst r. unfold emu_start. rewrite Hopen.
    unfold bind, gets. destruct (debug_on_start (cfg s)); cbn.
    + split; [reflexivity |]. split; [intros e [] | intros f' Hf'; discriminate Hf'].
    + split; [reflexivity |]. split; [intros e [] | intros f' Hf'; discriminate Hf'].
Qed.

(** C3, as the code has it. With a snapshot file whose signature is not
    0xCAFEBEEF, [emu_start] returns false and calls no resume function,
    but it does not leave the state as it found it. The registers, the
    cycle counter, the product and feature words and the other scheduler
    slots are untouched; the pending-event word gains [EVENT_DEBUG_STEP]
    when [debug_on_start] is set, the throttle slot gets its clock and
    callback, and [emu_cleanup] runs: exiting is set, memory is reset and
    released, storage is closed. *)
Theorem corrupted_signature_fails_start (port_gdb port_rdbg : Z) (path : list ascii)
    (h : start_host) (s : emu_state) (f : snapshot_file) :
  open_snapshot h path = Some f -> mmap_ok h = true ->
  sizeof_emu_snapshot <= file_size f ->
  sig (file_image f) <> SNAPSHOT_SIG ->
  let r := emu_start port_gdb port_rdbg (Some path) h s in
  let s' := snd (fst r) in
  fst (fst r) = false /\
  snd r = [EvReadSig; EvMemoryReset; EvMemoryDeinitialize; EvFlashClose; EvMunmap] /\
  s' = cleaned_up (before_resume s) /\
  arm s' = arm s /\
  cycle_count_delta s' = cycle_count_delta s /\
  product s' = product s /\ asic_user_flags s' = asic_user_flags s /\
  cpu_events s' = (if debug_on_start (cfg s)
                   then Z.lor (cpu_events s) EVENT_DEBUG_STEP else cpu_events s) /\
  exiting s' = true /\
  clock (items (sched s') SCHED_THROTTLE) = CLOCK_27M /\
  proc (items (sched s') SCHED_THROTTLE) = Some throttle_interval_event_proc /\
  (forall i, i <> SCHED_THROTTLE -> items (sched s') i = items (sched s) i) /\
  mem s' = memory_deinitialize (memory_reset (mem s)) /\
  flash s' = flash_close (flash s).
Proof.
  intros Hopen Hmap Hsize Hsig r s'.
  assert (Hr : r = (false, cleaned_up (before_resume s),
                    [EvReadSig; EvMemoryReset; EvMemoryDeinitialize; EvFlashClose;
                     EvMunmap])).
  { subst r. rewrite (@emu_start_rejected port_gdb port_rdbg path h s f Hopen Hmap (or_intror Hsig)).
    apply Z.ltb_ge in Hsize. now rewrite Hsize. }
  subst s'. rewrite Hr. cbn [fst snd].
  split; [reflexivity |]. split; [reflexivity |]. split; [reflexivity |].
  unfold cleaned_up, before_resume.
  destruct (debug_on_start (cfg s)); cbn;
    rewrite !upd_same; repeat (split; [reflexivity |]);
    (split; [intros i Hi; now apply upd_other | split; reflexivity]).
Qed.

(** ** Suspending *)

Definition no_nul (l : list ascii) : bool := forallb (fun c => negb (is_nul c)) l.

Lemma strncpy_length (n : nat) : forall dst src,
  List.length (strncpy dst src n) = List.length dst.
Proof.
  induction n as [| n IH]; intros [| d dst] src; try reflexivity.
  cbn [strncpy]. destruct src as [| c src]; [| destruct (is_nul c)];
    cbn [List.length]; now rewrite IH.
Qed.

Lemma strncpy_tail (n : nat) : forall dst src,
  skipn n (strncpy dst src n) = skipn n dst.
Proof.
  induction n as [| n IH]; intros [| d dst] src; try reflexivity.
  cbn [strncpy]. destruct src as [| c src]; [| destruct (is_nul c)];
    cbn [skipn]; apply IH.
Qed.

Lemma strncpy_head (n : nat) : forall dst src,
  no_nul src = true -> (n <= List.length src)%nat -> (n <= List.length dst)%nat ->
  firstn n (strncpy dst src n) = firstn n src.
Proof.
  induction n as [| n IH]; intros dst src Hsrc Hls Hld; [reflexivity |].
  destruct dst as [| d dst]; [cbn in Hld; lia |].
  destruct src as [| c src]; [cbn in Hls; lia |].
  unfold no_nul in Hsrc. cbn in Hsrc, Hls, Hld.
  apply Bool.andb_true_iff in Hsrc as [Hc Hsrc].
  cbn [strncpy]. apply Bool.negb_true_iff in Hc. rewrite Hc.
  cbn [firstn]. f_equal. apply IH; [assumption | lia | lia].
Qed.

Lemma null_terminated_app (l1 l2 : list ascii) :
  null_terminated (l1 ++ l2) = null_terminated l1 || null_terminated l2.
Proof. apply existsb_app. Qed.

Lemma no_nul_not_terminated (l : list ascii) :
  no_nul l = true -> null_terminated l = false.
Proof.
  unfold no_nul, null_terminated.
  induction l as [| c l IH]; [reflexivity |].
  cbn [forallb existsb]. intro Hl. apply Bool.andb_true_iff in Hl as [Hc Hl].
  apply Bool.negb_true_iff in Hc. now rewrite Hc, IH.
Qed.

Lemma no_nul_firstn (n : nat) (l : list ascii) :
  no_nul l = true -> no_nul (firstn n l) = true.
Proof.
  unfold no_nul.
  revert l. induction n as [| n IH]; intros [| c l]; try reflexivity.
  cbn [firstn forallb]. intro Hl. apply Bool.andb_true_iff in Hl as [Hc Hl].
  now rewrite Hc, IH.
Qed.

(** A path field whose bytes beyond the copied ones hold a NUL is a C
    string after the copy: this is the case of a file that
    [emu_suspend] created, which [ftruncate] filled with zeros. *)
Lemma strncpy_terminated (dst src : list ascii) (n : nat) :
  null_terminated (skipn n dst) = true ->
  null_terminated (strncpy dst src n) = true.
Proof.
  intro Htail.
  rewrite <- (firstn_skipn n (strncpy dst src n)), null_terminated_app.
  rewrite strncpy_tail, Htail. apply Bool.orb_true_r.
Qed.

(** A path of at least [n] characters over a field whose bytes beyond
    the copied ones hold no NUL: the field holds no C string. *)
Lemma strncpy_unterminated (dst src : list ascii) (n : nat) :
  no_nul src = true -> (n <= List.length src)%nat -> (n <= List.length dst)%nat ->
  no_nul (skipn n dst) = true ->
  strncpy dst src n = firstn n src ++ skipn n dst /\
  null_terminated (strncpy dst src n) = false.
Proof.
  intros Hsrc Hls Hld Htail.
  assert (Heq : strncpy dst src n = firstn n src ++ skipn n dst).
  { rewrite <- (firstn_skipn n (strncpy dst src n)).
    now rewrite strncpy_tail, strncpy_head. }
  split; [exact Heq |].
  rewrite Heq, null_terminated_app.
  rewrite (no_nul_not_terminated _ (no_nul_firstn n _ Hsrc)).
  now rewrite (no_nul_not_terminated _ Htail).
Qed.

(** The image when the header members have been stored. *)
Definition suspend_header (h : suspend_host) (s : emu_state)
    (boot1 pflash : list ascii) : emu_snapshot :=
  let i := store_ids (product s) (asic_user_flags s) (mapped_before h) in
  store_paths
    (strncpy (snap_path_boot1 i) boot1 (sizeof_path_boot1 - 1)%nat)
    (strncpy (snap_path_flash i) pflash (sizeof_path_flash - 1)%nat) i.

Lemma suspend_components_frame (s : emu_state) (i : emu_snapshot) :
  let i' := snd (fst (suspend_components s i)) in
  sig i' = sig i /\
  snap_path_boot1 i' = snap_path_boot1 i /\
  snap_path_flash i' = snap_path_flash i.
Proof.
  unfold suspend_components.
  destruct (flash_suspend _ _) as [[|] fl]; cbn [negb]; [| now cbn].
  destruct (cpu_suspend _ _) as [[|] c]; cbn [negb]; [| now cbn].
  destruct (sched_suspend _ _) as [[|] sc]; cbn [negb]; [| now cbn].
  destruct (memory_suspend _ _) as [ok m]. now cbn.
Qed.

Lemma emu_suspend_mapped (h : suspend_host) (s : emu_state) (boot1 pflash : list ascii) :
  open_rw_ok h = true -> ftruncate_ok h (suspend_size s) = true ->
  mmap_rw_ok h (suspend_size s) = true ->
  path_boot1 (cfg s) = Some boot1 -> path_flash (cfg s) = Some pflash ->
  let c := suspend_components s (suspend_header h s boot1 pflash) in
  let st := [FProduct; FAsicUserFlags; FPathBoot1; FPathFlash] ++ snd c in
  emu_suspend h s
  = if negb (fst (fst c))
    then {| result := StoreAfterMunmap; file_after := Some (snd (fst c)); stores := st |}
    else {| result := Returns true;
            file_after := Some (store_sig SNAPSHOT_SIG (snd (fst c)));
            stores := st ++ [FSig] |}.
Proof.
  intros Ho Ht Hm Hb Hf c st. unfold emu_suspend.
  rewrite Ho, Ht, Hm, Hb, Hf. cbn [negb].
  subst st c. unfold suspend_header.
  now destruct (suspend_components s _) as [[ok i] st].
Qed.

(** X2. When every subsystem serializes, the signature is the last
    member stored, after the header members and the four sub-regions in
    their order, the file carries 0xCAFEBEEF and [emu_suspend] returns
    true. *)
Lemma signature_stored_last (h : suspend_host) (s : emu_state) (boot1 pflash : list ascii) :
  open_rw_ok h = true -> ftruncate_ok h (suspend_size s) = true ->
  mmap_rw_ok h (suspend_size s) = true ->
  path_boot1 (cfg s) = Some boot1 -> path_flash (cfg s) = Some pflash ->
  fst (fst (suspend_components s (suspend_header h s boot1 pflash))) = true ->
  let r := emu_suspend h s in
  result r = Returns true /\
  stores r = [FProduct; FAsicUserFlags; FPathBoot1; FPathFlash;
              FFlash; FCpu; FSched; FMem; FSig] /\
  exists img, file_after r = Some img /\ sig img = SNAPSHOT_SIG.
Proof.
  intros Ho Ht Hm Hb Hf Hok r. subst r.
  rewrite (emu_suspend_mapped h s Ho Ht Hm Hb Hf). rewrite Hok. cbn [negb result stores file_after].
  split; [reflexivity |]. split; [| eexists; split; reflexivity].
  revert Hok. unfold suspend_components.
  destruct (flash_suspend _ _) as [[|] fl]; cbn [negb fst]; [| discriminate].
  destruct (cpu_suspend _ _) as [[|] c]; cbn [negb fst]; [| discriminate].
  destruct (sched_suspend _ _) as [[|] sc]; cbn [negb fst]; [| discriminate].
  now destruct (memory_suspend _ _) as [ok m].
Qed.

(** C1, on the failing path. When the file is open and mapped and one of
    the subsystems fails to serialize, [emu_suspend] removes the mapping
    and closes the file, and then goes on to the store of the signature:
    it does not return false. The file holds what was stored up to the
    failure, under whatever signature it had before. *)
Theorem failed_serialization_falls_through (h : suspend_host) (s : emu_state)
    (boot1 pflash : list ascii) :
  open_rw_ok h = true -> ftruncate_ok h (suspend_size s) = true ->
  mmap_rw_ok h (suspend_size s) = true ->
  path_boot1 (cfg s) = Some boot1 -> path_flash (cfg s) = Some pflash ->
  fst (fst (suspend_components s (suspend_header h s boot1 pflash))) = false ->
  let r := emu_suspend h s in
  result r = StoreAfterMunmap /\
  result r <> Returns false /\
  ~ In FSig (stores r) /\
  exists img, file_after r = Some img /\ sig img = sig (mapped_before h).
Proof.
  intros Ho Ht Hm Hb Hf Hfail r. subst r.
  rewrite (emu_suspend_mapped h s Ho Ht Hm Hb Hf). rewrite Hfail.
  cbn [negb result stores file_after].
  split; [reflexivity |]. split; [discriminate |]. split.
  - revert Hfail. unfold suspend_components.
    destruct (flash_suspend _ _) as [[|] fl]; cbn [negb fst snd];
      [| intros _ Hin; cbn in Hin; intuition discriminate].
    destruct (cpu_suspend _ _) as [[|] c]; cbn [negb fst snd];
      [| intros _ Hin; cbn in Hin; intuition discriminate].
    destruct (sched_suspend _ _) as [[|] sc]; cbn [negb fst snd];
      [| intros _ Hin; cbn in Hin; intuition discriminate].
    destruct (memory_suspend _ _) as [ok m]. cbn [fst snd].
    intros _ Hin; cbn in Hin; intuition discriminate.
  - eexists. split; [reflexivity |].
    now destruct (suspend_components_frame s (suspend_header h s boot1 pflash)) as [-> _].
Qed.

(** C9, on the failing path. [strncpy] stores [sizeof(field) - 1]
    characters and nothing stores the last one. Over a file that was
    there before, with a byte other than NUL at the end of the boot-ROM
    path field, a path that fills the field leaves it without a
    terminator: the field is the first [sizeof - 1] characters of the
    path followed by the old last byte. *)
Theorem long_path_over_old_file_is_unterminated (h : suspend_host) (s : emu_state)
    (boot1 pflash : list ascii) :
  open_rw_ok h = true -> ftruncate_ok h (suspend_size s) = true ->
  mmap_rw_ok h (suspend_size s) = true ->
  path_boot1 (cfg s) = Some boot1 -> path_flash (cfg s) = Some pflash ->
  List.length (snap_path_boot1 (mapped_before h)) = sizeof_path_boot1 ->
  no_nul boot1 = true ->
  (sizeof_path_boot1 - 1 <= List.length boot1)%nat ->
  no_nul (skipn (sizeof_path_boot1 - 1) (snap_path_boot1 (mapped_before h))) = true ->
  exists img,
    file_after (emu_suspend h s) = Some img /\
    snap_path_boot1 img
    = firstn (sizeof_path_boot1 - 1) boot1
      ++ skipn (sizeof_path_boot1 - 1) (snap_path_boot1 (mapped_before h)) /\
    null_terminated (snap_path_boot1 img) = false.
Proof.
  intros Ho Ht Hm Hb Hf Hlen Hsrc Hlong Hold.
  assert (Hcopy := @strncpy_unterminated (snap_path_boot1 (mapped_before h)) boot1
                     (sizeof_path_boot1 - 1) Hsrc Hlong ltac:(lia) Hold).
  destruct (suspend_components_frame s (suspend_header h s boot1 pflash))
    as (_ & Hp & _).
  rewrite (emu_suspend_mapped h s Ho Ht Hm Hb Hf).
  destruct (fst (fst (suspend_components s _))); cbn [negb file_after];
    eexists; (split; [reflexivity |]);
    cbn [store_sig snap_path_boot1]; rewrite Hp; exact Hcopy.
Qed.

(** X3. Over a field whose last byte is NUL, as in a file that
    [emu_suspend] created, both path fields are C strings whatever the
    paths are. *)
Lemma paths_terminated_in_new_file (h : suspend_host) (s : emu_state)
    (boot1 pflash : list ascii) :
  open_rw_ok h = true -> ftruncate_ok h (suspend_size s) = true ->
  mmap_rw_ok h (suspend_size s) = true ->
  path_boot1 (cfg s) = Some boot1 -> path_flash (cfg s) = Some pflash ->
  null_terminated (skipn (sizeof_path_boot1 - 1) (snap_path_boot1 (mapped_before h))) = true ->
  null_terminated (skipn (sizeof_path_flash - 1) (snap_path_flash (mapped_before h))) = true ->
  exists img,
    file_after (emu_suspend h s) = Some img /\
    null_terminated (snap_path_boot1 img) = true /\
    null_terminated (snap_path_flash img) = true.
Proof.
  intros Ho Ht Hm Hb Hf Hb1 Hfl.
  destruct (suspend_components_frame s (suspend_header h s boot1 pflash))
    as (_ & Hp & Hq).
  rewrite (emu_suspend_mapped h s Ho Ht Hm Hb Hf).
  destruct (fst (fst (suspend_components s _))); cbn [negb file_after];
    eexists; (split; [reflexivity |]);
    cbn [store_sig snap_path_boot1 snap_path_flash]; rewrite Hp, Hq;
    (split; apply strncpy_terminated; assumption).
Qed.

(** ** More on suspending *)

(** The C string that a character array holds: the characters before
    the first NUL. *)
Fixpoint c_str (field : list ascii) : list ascii :=
  match field with
  | [] => []
  | c :: rest => if is_nul c then [] else c :: c_str rest
  end.

Lemma c_str_strncpy_nul (n : nat) : forall d dst,
  c_str (strncpy (d :: dst) [] (S n)) = [].
Proof. reflexivity. Qed.

(** A string shorter than the count is stored whole and terminated,
    whatever the destination held. *)
Lemma strncpy_short (n : nat) : forall dst src,
  no_nul src = true -> (List.length src < n)%nat -> (n <= List.length dst)%nat ->
  c_str (strncpy dst src n) = src.
Proof.
  induction n as [| n IH]; intros dst src Hsrc Hls Hld; [lia |].
  destruct dst as [| d dst]; [cbn in Hld; lia |].
  destruct src as [| c src]; [reflexivity |].
  unfold no_nul in Hsrc. cbn in Hsrc, Hls, Hld.
  apply Bool.andb_true_iff in Hsrc as [Hc Hsrc].
  apply Bool.negb_true_iff in Hc.
  cbn [strncpy]. rewrite Hc. cbn [c_str]. rewrite Hc.
  f_equal. apply IH; [exact Hsrc | lia | lia].
Qed.

Lemma suspend_components_header (s : emu_state) (i : emu_snapshot) :
  let i' := snd (fst (suspend_components s i)) in
  snap_product i' = snap_product i /\
  snap_asic_user_flags i' = snap_asic_user_flags i.
Proof.
  unfold suspend_components.
  destruct (flash_suspend _ _) as [[|] fl]; cbn [negb]; [| now cbn].
  destruct (cpu_suspend _ _) as [[|] c]; cbn [negb]; [| now cbn].
  destruct (sched_suspend _ _) as [[|] sc]; cbn [negb]; [| now cbn].
  destruct (memory_suspend _ _) as [ok m]. now cbn.
Qed.

(** X1. When [open], [ftruncate] or [mmap] fails, [emu_suspend] returns
    false with nothing mapped and no member of the snapshot stored. The
    file itself may exist by then: [open] creates it and [ftruncate]
    resizes it before [mmap] is tried. *)
Theorem suspend_host_failure_returns_false (h : suspend_host) (s : emu_state) :
  open_rw_ok h = false \/ ftruncate_ok h (suspend_size s) = false \/
  mmap_rw_ok h (suspend_size s) = false ->
  result (emu_suspend h s) = Returns false /\
  file_after (emu_suspend h s) = None /\
  stores (emu_suspend h s) = [].
Proof.
  intro Hfail. unfold emu_suspend.
  destruct (open_rw_ok h); cbn [negb]; [| now repeat split].
  destruct (ftruncate_ok h (suspend_size s)); cbn [negb]; [| now repeat split].
  destruct (mmap_rw_ok h (suspend_size s)); cbn [negb]; [| now repeat split].
  destruct Hfail as [Hf | [Hf | Hf]]; discriminate Hf.
Qed.

(** X4. Paths that are shorter than their fields by two characters or
    more are stored whole: once the file is mapped, the boot-ROM and
    storage-image fields read back as the configured paths, and the
    product and feature words are those of the machine, whether the
    file was new or not and whether the subsystems then serialize or
    not. *)
Theorem short_paths_read_back (h : suspend_host) (s : emu_state)
    (boot1 pflash : list ascii) :
  open_rw_ok h = true -> ftruncate_ok h (suspend_size s) = true ->
  mmap_rw_ok h (suspend_size s) = true ->
  path_boot1 (cfg s) = Some boot1 -> path_flash (cfg s) = Some pflash ->
  List.length (snap_path_boot1 (mapped_before h)) = sizeof_path_boot1 ->
  List.length (snap_path_flash (mapped_before h)) = sizeof_path_flash ->
  no_nul boot1 = true -> no_nul pflash = true ->
  (List.length boot1 < sizeof_path_boot1 - 1)%nat ->
  (List.length pflash < sizeof_path_flash - 1)%nat ->
  exists img,
    file_after (emu_suspend h s) = Some img /\
    c_str (snap_path_boot1 img) = boot1 /\
    c_str (snap_path_flash img) = pflash /\
    snap_product img = product s /\
    snap_asic_user_flags img = asic_user_flags s.
Proof.
  intros Ho Ht Hm Hb Hf Hlb Hlf Hnb Hnf Hsb Hsf.
  destruct (suspend_components_frame s (suspend_header h s boot1 pflash))
    as (_ & Hp & Hq).
  destruct (suspend_components_header s (suspend_header h s boot1 pflash))
    as (Hprod & Hflags).
  rewrite (emu_suspend_mapped h s Ho Ht Hm Hb Hf).
  destruct (fst (fst (suspend_components s _))); cbn [negb file_after];
    eexists; (split; [reflexivity |]);
    cbn [store_sig snap_path_boot1 snap_path_flash snap_product snap_asic_user_flags];
    rewrite Hp, Hq, Hprod, Hflags;
    (split; [apply strncpy_short; [assumption | assumption | cbn; lia] |]);
    (split; [apply strncpy_short; [assumption | assumption | cbn; lia] |]);
    split; reflexivity.
Qed.

(** X5. A snapshot that [emu_suspend] completed passes the validation
    of [emu_start]: its size is not below the structure's and its
    signature is the expected one, so a resume of that file reads the
    signature and goes on to [flash_resume]. *)
Theorem completed_snapshot_passes_validation (h : suspend_host) (s s0 : emu_state)
    (img : emu_snapshot) :
  0 <= flash_suspend_flexsize (flash s) ->
  result (emu_suspend h s) = Returns true ->
  file_after (emu_suspend h s) = Some img ->
  sig img = SNAPSHOT_SIG /\
  sizeof_emu_snapshot <= suspend_size s /\
  exists out, snd (resume_components (suspend_size s) img s0)
              = EvReadSig :: EvFlashResume :: out.
Proof.
  intros Hflex Hres Hfile.
  assert (Hsig : sig img = SNAPSHOT_SIG).
  { revert Hres Hfile. unfold emu_suspend.
    destruct (open_rw_ok h); cbn [negb result file_after]; [| discriminate].
    destruct (ftruncate_ok h _); cbn [negb result file_after]; [| discriminate].
    destruct (mmap_rw_ok h _); cbn [negb result file_after]; [| discriminate].
    destruct (path_boot1 (cfg s)); cbn [result]; [| discriminate].
    destruct (path_flash (cfg s)); cbn [result]; [| discriminate].
    destruct (suspend_components s _) as [[[|] i] st]; cbn [negb result file_after];
      [| discriminate].
    intros _ Himg. injection Himg as <-. reflexivity. }
  assert (Hsize : sizeof_emu_snapshot <= suspend_size s) by (unfold suspend_size; lia).
  split; [exact Hsig |]. split; [exact Hsize |].
  unfold resume_components.
  apply Z.ltb_ge in Hsize. rewrite Hsize.
  unfold bind at 1. unfold emit at 1.
  rewrite Hsig, Z.eqb_refl. cbn [negb].
  unfold bind at 1. unfold call_flash_resume at 1. unfold bind at 1. unfold emit at 1.
  destruct (flash_resume img (flash s0)) as [ok f].
  match goal with
  | |- context [?m (with_flash f s0)] =>
      destruct (m (with_flash f s0)) as [[b s2] o2]
  end.
  eexists. reflexivity.
Qed.

(** ** More on starting *)

(** The host side after the initialisations that end [emu_start]. *)
Definition started_host (port_gdb port_rdbg : Z) (x : Host) : Host :=
  let x := throttle_timer_on (addr_cache_init (translate_init x)) in
  let x := if negb (port_gdb =? 0) then gdbstub_init port_gdb x else x in
  if negb (port_rdbg =? 0) then rdebug_bind port_rdbg x else x.

Lemma start_common_run (port_gdb port_rdbg : Z) (h : start_host) (s : emu_state) :
  start_common port_gdb port_rdbg h s
  = match path_boot1 (cfg s) with
    | Some p =>
        match open_boot1 h p with
        | None => (false, with_mem (rom_erase (mem s)) s, [EvPerror p])
        | Some bytes =>
            let s1 := with_mem (rom_load bytes (rom_erase (mem s))) s in
            (true, with_host (started_host port_gdb port_rdbg (host s1)) s1, [])
        end
    | None =>
        let s1 := with_mem (rom_erase (mem s)) s in
        (true, with_host (started_host port_gdb port_rdbg (host s1)) s1, [])
    end.
Proof.
  unfold start_common, load_boot1, started_host, bind, gets, modify, on_host, when, ret, emit.
  cbn [cfg with_mem].
  destruct (path_boot1 (cfg s)) as [p |].
  - destruct (open_boot1 h p) as [bytes |]; [| reflexivity].
    destruct (port_gdb =? 0), (port_rdbg =? 0); reflexivity.
  - destruct (port_gdb =? 0), (port_rdbg =? 0); reflexivity.
Qed.

Lemma resume_components_cfg (size : Z) (snap : emu_snapshot) (s : emu_state) :
  cfg (snd (fst (resume_components size snap s))) = cfg s.
Proof.
  cbv [resume_components bind emit ret call_flash_resume call_flash_read_settings
       call_cpu_resume call_memory_resume call_sched_resume].
  destruct (size <? sizeof_emu_snapshot); [reflexivity |].
  destruct (sig snap =? SNAPSHOT_SIG); cbn [negb]; [| reflexivity].
  destruct (flash_resume snap (flash s)) as [[|] f]; cbn [negb]; [| reflexivity].
  destruct (flash_read_settings _) as [[|] [[sd p] a]]; cbn [negb fst]; [| reflexivity].
  destruct (cpu_resume snap _) as [[|] [a' e]]; cbn [negb]; [| reflexivity].
  destruct (memory_resume snap _) as [[|] m]; cbn [negb]; [| reflexivity].
  destruct (sched_resume snap _) as [ok sc]. reflexivity.
Qed.

Lemma emu_start_reaches_common (port_gdb port_rdbg : Z) (snapshot_file : option (list ascii))
    (h : start_host) (s : emu_state) :
  fst (fst (emu_start port_gdb port_rdbg snapshot_file h s)) = true ->
  exists s1,
    cfg s1 = cfg s /\
    snd (fst (emu_start port_gdb port_rdbg snapshot_file h s))
    = snd (fst (start_common port_gdb port_rdbg h s1)) /\
    fst (fst (start_common port_gdb port_rdbg h s1)) = true.
Proof.
  cbv [emu_start bind gets when modify ret emit call_flash_read_settings].
  destruct snapshot_file as [path |].
  - destruct (open_snapshot h path) as [f |];
      [| destruct (debug_on_start (cfg s)); cbn; discriminate].
    destruct (mmap_ok h); cbn [negb];
      [| destruct (debug_on_start (cfg s)); cbn; discriminate].
    destruct (debug_on_start (cfg s));
      match goal with
      | |- context [resume_components ?a ?b ?c] =>
          pose proof (resume_components_cfg a b c) as Hcfg;
          destruct (resume_components a b c) as [[ok s1] o1]
      end;
      cbn [fst snd] in Hcfg; cbn [cfg with_sched with_cpu_events] in Hcfg;
      (destruct ok; cbn [negb];
       [ destruct (start_common port_gdb port_rdbg h s1) as [[b s2] o2] eqn:Hsc;
         cbn [fst snd]; intro Hb; exists s1; rewrite Hsc; cbn [fst snd];
         repeat split; assumption
       | rewrite emu_cleanup_run; cbn; discriminate ]).
  - destruct (debug_on_start (cfg s)); cbn [cfg with_cpu_events];
      (destruct (path_flash (cfg s)) as [pf |]; [| cbn; discriminate]);
      match goal with
      | |- context [flash_open pf ?x] => destruct (flash_open pf x) as [[|] fl]
      end; cbn [negb]; try (cbn; discriminate);
      cbn [flash with_flash];
      destruct (flash_read_settings fl) as [okr [[sd p] a]];
      cbn [snd cfg with_settings with_flash with_cpu_events flash mem];
      match goal with
      | |- context [memory_initialize sd ?x] =>
          destruct (memory_initialize sd x) as [[|] m]
      end; cbn [negb]; try (cbn; discriminate);
      match goal with
      | |- context [start_common port_gdb port_rdbg h ?x] =>
          destruct (start_common port_gdb port_rdbg h x) as [[b s2] o2] eqn:Hsc;
          cbn [fst snd]; intro Hb; exists x; rewrite Hsc; cbn [fst snd];
          repeat split; assumption
      end.
Qed.

(** The byte that the boot ROM holds at offset [a] once [emu_start] has
    returned true: the byte of the ROM image where the image reaches,
    the erased-flash value 0xFF elsewhere. *)
Definition boot_rom_byte (h : start_host) (s : emu_state) (a : Z) : Z :=
  match path_boot1 (cfg s) with
  | Some p =>
      match open_boot1 h p with
      | Some bytes => if a <? Z.of_nat (List.length bytes)
                      then nth (Z.to_nat a) bytes 0 else 255
      | None => 255
      end
  | None => 255
  end.

(** X6. Whenever [emu_start] returns true, by a cold boot or by a
    resume, every word of the first 512 KiB of the ROM area is flagged
    [RF_READ_ONLY], and every byte there is the byte of the boot1 image,
    or 0xFF where no image is configured or the image is shorter. *)
Theorem started_rom_is_loaded_and_read_only (port_gdb port_rdbg : Z)
    (snapshot_file : option (list ascii)) (h : start_host) (s : emu_state) :
  fst (fst (emu_start port_gdb port_rdbg snapshot_file h s)) = true ->
  let m := mem (snd (fst (emu_start port_gdb port_rdbg snapshot_file h s))) in
  (forall a, 0 <= a < 0x80000 -> a mod 4 = 0 -> rom_flags m a = RF_READ_ONLY) /\
  (forall a, 0 <= a < 0x80000 -> rom m a = boot_rom_byte h s a).
Proof.
  intros Hok m. subst m.
  destruct (emu_start_reaches_common _ _ _ _ _ Hok) as (s1 & Hcfg & -> & Hcommon).
  revert Hcommon. rewrite start_common_run. unfold boot_rom_byte. rewrite <- Hcfg.
  assert (Hin : forall a, 0 <= a < 0x80000 -> in_rom a = true).
  { intros a Ha. unfold in_rom. apply Bool.andb_true_iff. split.
    - apply Z.leb_le. lia.
    - apply Z.ltb_lt. lia. }
  destruct (path_boot1 (cfg s1)) as [p |].
  - destruct (open_boot1 h p) as [bytes |]; [| discriminate].
    intros _. cbn. split.
    + intros a Ha Hmod. rewrite (Hin a Ha). apply Z.eqb_eq in Hmod. now rewrite Hmod.
    + intros a Ha. rewrite (Hin a Ha). cbn [andb].
      now destruct (a <? Z.of_nat (List.length bytes)).
  - intros _. cbn. split.
    + intros a Ha Hmod. rewrite (Hin a Ha). apply Z.eqb_eq in Hmod. now rewrite Hmod.
    + intros a Ha. now rewrite (Hin a Ha).
Qed.

(** X8. With a boot1 path configured and the ROM image not openable,
    [emu_start] never returns true, on a cold boot or on a resume. *)
Theorem unreadable_boot1_fails_start (port_gdb port_rdbg : Z)
    (snapshot_file : option (list ascii)) (h : start_host) (s : emu_state)
    (p : list ascii) :
  path_boot1 (cfg s) = Some p -> open_boot1 h p = None ->
  fst (fst (emu_start port_gdb port_rdbg snapshot_file h s)) = false.
Proof.
  intros Hp Hopen.
  destruct (fst (fst (emu_start port_gdb port_rdbg snapshot_file h s))) eqn:Hok;
    [| reflexivity].
  destruct (emu_start_reaches_common _ _ _ _ _ Hok) as (s1 & Hcfg & _ & Hcommon).
  rewrite start_common_run, Hcfg, Hp, Hopen in Hcommon. discriminate Hcommon.
Qed.

(** X7. A cold boot with no storage path, or with a storage image that
    [flash_open] refuses, returns false at once: nothing is reported,
    memory and the host side are as before, and [emu_cleanup] is not
    run (the exiting flag keeps its value). *)
Theorem cold_boot_without_storage_fails (port_gdb port_rdbg : Z)
    (h : start_host) (s : emu_state) :
  path_flash (cfg s) = None \/
  (exists p, path_flash (cfg s) = Some p /\ fst (flash_open p (flash s)) = false) ->
  let r := emu_start port_gdb port_rdbg None h s in
  fst (fst r) = false /\ snd r = [] /\
  mem (snd (fst r)) = mem s /\ host (snd (fst r)) = host s /\
  exiting (snd (fst r)) = exiting s /\ arm (snd (fst r)) = arm s.
Proof.
  intros Hcase r. subst r.
  cbv [emu_start bind gets when modify ret emit].
  destruct Hcase as [Hnone | (p & Hsome & Hopen)].
  - destruct (debug_on_start (cfg s)); cbn [cfg with_cpu_events];
      rewrite Hnone; repeat split.
  - destruct (debug_on_start (cfg s)); cbn [cfg with_cpu_events flash];
      rewrite Hsome; cbv beta; cbn [flash with_cpu_events];
      destruct (flash_open p (flash s)) as [ok fl];
      cbn [fst] in Hopen; subst ok; repeat split.
Qed.

(** The resume functions in the order of the condition. *)
Definition resume_order : list event :=
  [EvFlashResume; EvFlashReadSettings; EvCpuResume; EvMemoryResume; EvSchedResume].

(** X9. The resume functions are called in one order (storage, settings,
    CPU, memory, scheduler), each only after the ones before it, and
    only after the signature was read: what [resume_components] calls is
    a prefix of that order, and the whole of it when the condition lets
    the resume through. *)
Theorem resume_calls_in_order (size : Z) (snap : emu_snapshot) (s : emu_state) :
  exists k,
    snd (resume_components size snap s)
    = (if size <? sizeof_emu_snapshot then [] else EvReadSig :: firstn k resume_order) /\
    (fst (fst (resume_components size snap s)) = true -> k = 5%nat).
Proof.
  cbv [resume_components bind emit ret call_flash_resume call_flash_read_settings
       call_cpu_resume call_memory_resume call_sched_resume].
  destruct (size <? sizeof_emu_snapshot); [exists 0%nat; split; [reflexivity | discriminate] |].
  destruct (sig snap =? SNAPSHOT_SIG); cbn [negb];
    [| exists 0%nat; split; [reflexivity | discriminate]].
  destruct (flash_resume snap (flash s)) as [[|] f]; cbn [negb];
    [| exists 1%nat; split; [reflexivity | discriminate]].
  destruct (flash_read_settings _) as [[|] [[sd p] a]]; cbn [negb fst];
    [| exists 2%nat; split; [reflexivity | discriminate]].
  destruct (cpu_resume snap _) as [[|] [a' e]]; cbn [negb];
    [| exists 3%nat; split; [reflexivity | discriminate]].
  destruct (memory_resume snap _) as [[|] m]; cbn [negb];
    [| exists 4%nat; split; [reflexivity | discriminate]].
  destruct (sched_resume snap _) as [ok sc].
  exists 5%nat. split; reflexivity.
Qed.

(** X10. When the file is open and mapped and the resume does not go
    through, for whichever reason, [emu_start] returns false after
    [emu_cleanup] and [munmap]: the exiting flag is set, memory is what
    [memory_reset] and [memory_deinitialize] leave of it, storage is
    closed, and the rest of [emu_start] is not run. *)
Theorem failed_resume_cleans_up (port_gdb port_rdbg : Z) (path : list ascii)
    (h : start_host) (s : emu_state) (f : snapshot_file) :
  open_snapshot h path = Some f -> mmap_ok h = true ->
  let rc := resume_components (file_size f) (file_image f) (before_resume s) in
  fst (fst rc) = false ->
  emu_start port_gdb port_rdbg (Some path) h s
  = (false, cleaned_up (snd (fst rc)),
     snd rc ++ [EvMemoryReset; EvMemoryDeinitialize; EvFlashClose; EvMunmap]) /\
  exiting (cleaned_up (snd (fst rc))) = true /\
  mem (cleaned_up (snd (fst rc)))
  = memory_deinitialize (memory_reset (mem (snd (fst rc)))) /\
  flash (cleaned_up (snd (fst rc))) = flash_close (flash (snd (fst rc))).
Proof.
  intros Hopen Hmap rc Hfail.
  split; [| repeat split].
  unfold emu_start. rewrite Hopen, Hmap. cbn [negb].
  cbv [bind gets when modify ret emit].
  assert (Hrc : rc = resume_components (file_size f) (file_image f) (before_resume s))
    by reflexivity.
  unfold before_resume in Hrc.
  destruct (debug_on_start (cfg s)); rewrite <- Hrc;
    destruct rc as [[ok s1] o1]; cbn [fst snd] in *; subst ok; cbn [negb];
    rewrite emu_cleanup_run; rewrite !app_nil_r; reflexivity.
Qed.

(** ** More on the loop *)

Lemma wrap32_mod (x k : Z) : 0 < k -> (k | 2 ^ 32) -> wrap32 x mod k = x mod k.
Proof. intros Hk Hdiv. unfold wrap32. now apply Z.mod_mod_divide. Qed.

Lemma wrap32_range (x : Z) : 0 <= wrap32 x < 2 ^ 32.
Proof. unfold wrap32. apply Z.mod_pos_bound. reflexivity. Qed.

Lemma add4_mod (x k : Z) : 0 < k -> (k | 4) -> x mod k = 0 -> (x + 4) mod k = 0.
Proof.
  intros Hk Hdiv Hx. apply Z.mod_divide in Hx; [| lia].
  apply Z.mod_divide; [lia |].
  now apply Z.divide_add_r.
Qed.

Lemma stepped_aligned (x k : Z) :
  0 < k -> (k | 4) -> (k | 2 ^ 32) -> x mod k = 0 -> wrap32 (x + 4) mod k = 0.
Proof. intros Hk H4 H32 Hx. rewrite wrap32_mod by assumption. now apply add4_mod. Qed.

Lemma interrupt_entry_pc (s : emu_state) :
  pc (fst (interrupt_entry s))
  = let aligned :=
      Z.land (pc s) (if has_bits (cpsr_low28 (arm s)) 0x20 then not32 1 else not32 3) in
    wrap32 ((if has_bits (cpu_events s) EVENT_WAITING
             then wrap32 (aligned + 4) else aligned) + 4).
Proof.
  unfold interrupt_entry.
  destruct (has_bits (cpsr_low28 (arm s)) 32);
    destruct (has_bits (cpu_events s) EVENT_WAITING) eqn:Hw;
    cbn [fst]; change (cpu_events (set_pc ?v s)) with (cpu_events s);
    rewrite Hw; now rewrite !pc_set_pc.
Qed.

(** X11. The address handed to the exception entry is a 32-bit value
    aligned for the instruction set in use: always even, and a multiple
    of 4 when the Thumb bit of the status register is clear, whatever
    the program counter was. *)
Theorem interrupt_return_address_aligned (s : emu_state) :
  let p := pc (fst (interrupt_entry s)) in
  0 <= p < 2 ^ 32 /\
  p mod 2 = 0 /\
  (has_bits (cpsr_low28 (arm s)) 0x20 = false -> p mod 4 = 0).
Proof.
  intro p. subst p. rewrite interrupt_entry_pc. cbv zeta.
  assert (D2 : (2 | 4)) by (exists 2; reflexivity).
  assert (D4 : (4 | 4)) by (exists 1; reflexivity).
  assert (E2 : (2 | 2 ^ 32)) by (exists (2 ^ 31); reflexivity).
  assert (E4 : (4 | 2 ^ 32)) by (exists (2 ^ 30); reflexivity).
  split; [apply wrap32_range |]. split.
  - assert (Hal : Z.land (pc s)
                    (if has_bits (cpsr_low28 (arm s)) 32 then not32 1 else not32 3)
                  mod 2 = 0).
    { destruct (has_bits (cpsr_low28 (arm s)) 32); [apply mask_thumb_aligned |].
      pose proof (mask_arm_aligned (pc s)) as H4.
      rewrite <- (Z.mod_mod_divide _ 4 2) by assumption. now rewrite H4. }
    destruct (has_bits (cpu_events s) EVENT_WAITING);
      repeat apply stepped_aligned; (lia || assumption).
  - intros Harm. rewrite Harm.
    destruct (has_bits (cpu_events s) EVENT_WAITING);
      repeat apply stepped_aligned; try (lia || assumption);
      apply mask_arm_aligned.
Qed.

(** X12. An instruction is dispatched only from the inner loop, with no
    exit requested, cycles left in the budget and no reset pending: a
    move of [emu_loop] that dispatches started from such a state. *)
Theorem dispatch_only_within_budget (p : point) (s : emu_state) (m : exec_mode) :
  In (EvDispatch m) (snd (step p s)) ->
  p = at_inner /\ exiting s = false /\ cycle_count_delta s < 0 /\
  has_bits (cpu_events s) EVENT_RESET = false.
Proof.
  destruct p as [[|] | | | | |]; cbn [step snd].
  - intros [].
  - intros [].
  - unfold reset_block. cbn. intuition discriminate.
  - intros [].
  - destruct (exiting s); [intros [] |].
    destruct (sched_process_pending_events s) as [t | msg t]; cbn.
    + intuition discriminate.
    + intuition discriminate.
  - destruct (exiting s); cbn [negb andb]; [intros [] |].
    destruct (cycle_count_delta s <? 0) eqn:Hneg; [| intros []].
    unfold inner_body.
    destruct (has_bits (cpu_events s) EVENT_RESET); [cbn; intuition discriminate |].
    intros _. apply Z.ltb_lt in Hneg. now repeat split.
  - intros [].
Qed.

(** The scheduler's pending events are processed before the first
    exception entry or dispatch in [out]. *)
Fixpoint sched_precedes_dispatch (out : list event) : bool :=
  match out with
  | [] => true
  | EvSchedProcess :: _ => true
  | e :: out' => if is_dispatch e then false else sched_precedes_dispatch out'
  end.

Lemma checkpoint_processes_events_first (fuel : nat) (s : emu_state) :
  sched_precedes_dispatch (snd (run fuel at_checkpoint s)) = true.
Proof.
  destruct fuel as [| fuel]; [reflexivity |].
  cbn [run step]. destruct (exiting s).
  - now destruct fuel.
  - destruct (resume_at at_inner (sched_process_pending_events s)) as [[p1 s1] o1].
    now destruct (run fuel p1 s1) as [[p2 s2] o2].
Qed.

(** X13. However [emu_loop] is entered, with or without a reset, and
    however long it runs, it enters no exception and dispatches no
    instruction before [sched_process_pending_events] has been called. *)
Theorem loop_processes_events_before_dispatch (fuel : nat) (reset : bool) (s : emu_state) :
  sched_precedes_dispatch (snd (emu_loop fuel reset s)) = true.
Proof.
  unfold emu_loop.
  destruct fuel as [| fuel]; [reflexivity |].
  destruct reset; cbn [run step].
  - destruct fuel as [| fuel]; [reflexivity |].
    cbn [run step]. destruct (reset_block s) as [s1 o1] eqn:Hreset.
    assert (Ho1 : o1 = [EvSchedReset; EvMemoryReset]).
    { unfold reset_block in Hreset. now injection Hreset as _ <-. }
    subst o1.
    destruct fuel as [| fuel]; [reflexivity |].
    cbn [run step].
    pose proof (checkpoint_processes_events_first fuel (restart_block s1)) as Hck.
    destruct (run fuel at_checkpoint (restart_block s1)) as [[p2 s2] o2].
    exact Hck.
  - destruct fuel as [| fuel]; [reflexivity |].
    cbn [run step].
    pose proof (checkpoint_processes_events_first fuel (restart_block s)) as Hck.
    destruct (run fuel at_checkpoint (restart_block s)) as [[p2 s2] o2].
    exact Hck.
Qed.

(** X14. [emu_cleanup] ends a running loop at its next poll point and
    changes neither the CPU (registers, pending events, cycle counter)
    nor the scheduler nor the configuration. *)
Theorem cleanup_stops_loop (s : emu_state) :
  (forall fuel, run (S fuel) at_checkpoint (cleaned_up s) = (at_return, cleaned_up s, [])) /\
  (forall fuel, run (S (S fuel)) at_inner (cleaned_up s) = (at_return, cleaned_up s, [])) /\
  arm (cleaned_up s) = arm s /\ cpu_events (cleaned_up s) = cpu_events s /\
  cycle_count_delta (cleaned_up s) = cycle_count_delta s /\
  sched (cleaned_up s) = sched s /\ cfg (cleaned_up s) = cfg s.
Proof.
  assert (Hex : exiting (cleaned_up s) = true) by reflexivity.
  split; [| split; [| repeat split]].
  - intro fuel. cbn [run step]. rewrite Hex. now destruct fuel.
  - intro fuel. cbn [run step]. rewrite Hex. cbn [negb andb run step].
    rewrite Hex. now destruct fuel.
Qed.

(** X15. The reset block zeroes the whole register file and the other
    words of the CPU structure, hands [memory_reset] a RAM of zeros, and
    leaves the configuration, the product and feature words, storage,
    the host side, the cycle counter and the exiting flag as they were. *)
Theorem reset_clears_cpu_and_ram (s : emu_state) :
  let s' := fst (reset_block s) in
  (forall i, reg (arm s') i = 0) /\
  Forall (fun w => w = 0) (arm_rest (arm s')) /\
  (exists m0, mem s' = memory_reset m0 /\ (forall a, ram m0 a = 0) /\
              rom m0 = rom (mem s) /\ rom_flags m0 = rom_flags (mem s)) /\
  cfg s' = cfg s /\ product s' = product s /\ asic_user_flags s' = asic_user_flags s /\
  flash s' = flash s /\ host s' = host s /\
  cycle_count_delta s' = cycle_count_delta s /\ exiting s' = exiting s.
Proof.
  intro s'. subst s'. unfold reset_block. cbn.
  split; [reflexivity |]. split.
  - apply Forall_forall. intros w Hw. apply in_map_iff in Hw as (x & <- & _). reflexivity.
  - split; [| repeat split].
    eexists. split; [reflexivity |]. cbn. repeat split.
Qed.

(** X16. [exec_hack] answers 1 exactly at the address 0x10040. There,
    with [debug_on_warn] off, it returns to the caller of the routine:
    the program counter becomes the link register, no other register
    changes, and the warning that is printed carries the new program
    counter. Anywhere else it answers 0 and does nothing. *)
Theorem exec_hack_returns_to_caller (s : emu_state) :
  debug_on_warn (cfg s) = false ->
  (fst (fst (exec_hack s)) = 1 <-> pc s = 0x10040) /\
  (pc s <> 0x10040 -> exec_hack s = (0, s, [])) /\
  (pc s = 0x10040 ->
   pc (snd (fst (exec_hack s))) = reg (arm s) 14%nat /\
   (forall i, i <> 15%nat -> reg (arm (snd (fst (exec_hack s)))) i = reg (arm s) i) /\
   snd (exec_hack s)
   = [EvDebugPrintf "Warning" (reg (arm s) 14%nat);
      EvDebugMessage "BOOT1 is required to run this version of BOOT2."]).
Proof.
  intro Hwarn. unfold exec_hack, warn.
  change (cfg (set_pc ?v s)) with (cfg s). rewrite Hwarn.
  destruct (pc s =? 0x10040) eqn:Hpc.
  - apply Z.eqb_eq in Hpc. cbn [fst snd]. split; [now split |].
    split; [intro Hne; contradiction |].
    intros _. rewrite pc_set_pc. split; [reflexivity |].
    split; [intros i Hi; now apply reg_set_pc | reflexivity].
  - apply Z.eqb_neq in Hpc. cbn [fst snd]. split; [split; [discriminate | contradiction] |].
    split; [reflexivity | contradiction].
Qed.

(** ** More on the throttle callback *)

Lemma sint32_id (z : Z) : - 2 ^ 31 <= z < 2 ^ 31 -> sint32 z = z.
Proof. intro Hz. unfold sint32. rewrite Z.mod_small by lia. lia. Qed.

Lemma sint32_add (a b : Z) : sint32 (sint32 a + b) = sint32 (a + b).
Proof.
  unfold sint32. f_equal.
  replace ((a + 2 ^ 31) mod 2 ^ 32 - 2 ^ 31 + b + 2 ^ 31)
    with ((a + 2 ^ 31) mod 2 ^ 32 + b) by lia.
  rewrite Zplus_mod_idemp_l. f_equal. lia.
Qed.

(** The statics after a call, and what the call shows. *)
Lemma throttle_statics_after (index : nat) (interval_end : Z)
    (t : throttle_statics) (s : emu_state) :
  let r := throttle_interval_event index interval_end t s in
  let n := sint32 (intervals t + 1) in
  let w := measured_window interval_end t in
  fst (fst r)
  = (if 500000 <=? w
     then {| intervals := n; prev_intervals := n; prev := Some interval_end;
             speed := throttle_speed (sint32 (n - prev_intervals t)) w |}
     else {| intervals := n; prev_intervals := prev_intervals t;
             prev := Some match prev t with Some p => p | None => interval_end end;
             speed := speed t |}) /\
  exists wait,
    snd r = (if 500000 <=? w
             then [EvShowSpeed (throttle_speed (sint32 (n - prev_intervals t)) w)]
             else []) ++ EvDoStuff :: wait /\
    wait = (if negb (turbo_mode (cfg (snd (fst r))))
               && PrimFloat.ltb 0x1.6666666666666p-1%float (speed (fst (fst r)))
            then [EvThrottleWait] else []).
Proof.
  intros r n w. subst r n w. unfold throttle_interval_event, measured_window.
  destruct (gui_getchar _) as [c x].
  destruct (500000 <=? _); cbn [fst snd]; (split; [reflexivity |]);
    eexists; split; reflexivity.
Qed.

(** X17. A call whose window is still below 500000 microseconds shows
    no speed: the speed and the start of the window stay, the count of
    reported intervals stays, and only the interval counter moves. *)
Theorem throttle_is_silent_within_window (index : nat) (interval_end p : Z)
    (t : throttle_statics) (s : emu_state) :
  prev t = Some p ->
  to_microseconds (interval_end - p) < 500000 ->
  let r := throttle_interval_event index interval_end t s in
  (forall sp, ~ In (EvShowSpeed sp) (snd r)) /\
  speed (fst (fst r)) = speed t /\
  prev (fst (fst r)) = Some p /\
  prev_intervals (fst (fst r)) = prev_intervals t /\
  intervals (fst (fst r)) = sint32 (intervals t + 1).
Proof.
  intros Hprev Hwin r.
  destruct (throttle_statics_after index interval_end t s) as (Hst & wait & Hout & Hwait).
  fold r in Hst, Hout, Hwait.
  unfold measured_window in Hst, Hout. rewrite Hprev in Hst, Hout.
  apply Z.leb_gt in Hwin. rewrite Hwin in Hst, Hout.
  rewrite Hst. cbn [speed prev prev_intervals intervals].
  split; [| repeat split].
  intros sp Hin. rewrite Hout, Hwait in Hin. cbn in Hin.
  destruct Hin as [Hin | Hin]; [discriminate Hin |].
  destruct (negb _ && _); cbn in Hin; intuition discriminate.
Qed.

(** X18. The callback waits on the throttle timer exactly when turbo
    mode is off, as read after the front end's pump has run, and the
    current speed is above 0.7; with turbo mode on it never waits,
    whatever the speed. *)
Theorem throttle_waits_unless_turbo (index : nat) (interval_end : Z)
    (t : throttle_statics) (s : emu_state) :
  let r := throttle_interval_event index interval_end t s in
  In EvThrottleWait (snd r) <->
  turbo_mode (cfg (snd (fst r))) = false /\
  PrimFloat.ltb 0x1.6666666666666p-1%float (speed (fst (fst r))) = true.
Proof.
  intro r.
  destruct (throttle_statics_after index interval_end t s) as (_ & wait & Hout & Hwait).
  fold r in Hout, Hwait. rewrite Hout, Hwait.
  destruct (turbo_mode (cfg (snd (fst r))));
    destruct (PrimFloat.ltb _ (speed (fst (fst r))));
    destruct (500000 <=? _); cbn; intuition discriminate.
Qed.

(** Calls of the callback one after the other, at the given readings of
    the host clock. *)
Fixpoint throttle_calls (index : nat) (ends : list Z) (t : throttle_statics)
    (s : emu_state) : throttle_statics * emu_state * list event :=
  match ends with
  | [] => (t, s, [])
  | e :: rest =>
      let '(t1, s1, o1) := throttle_interval_event index e t s in
      let '(t2, s2, o2) := throttle_calls index rest t1 s1 in
      (t2, s2, o1 ++ o2)
  end.

Lemma silent_calls_count (index : nat) (p : Z) (ends : list Z) :
  forall t s,
    prev t = Some p ->
    Forall (fun e => to_microseconds (e - p) < 500000) ends ->
    let t' := fst (fst (throttle_calls index ends t s)) in
    prev t' = Some p /\ prev_intervals t' = prev_intervals t /\
    sint32 (intervals t') = sint32 (intervals t + Z.of_nat (List.length ends)).
Proof.
  induction ends as [| e rest IH]; intros t s Hprev Hall t'.
  - subst t'. cbn. now rewrite Z.add_0_r.
  - inversion Hall as [| e0 rest0 He Hrest]; subst.
    subst t'. cbn [throttle_calls].
    destruct (throttle_statics_after index e t s) as (Hst & _).
    unfold measured_window in Hst. rewrite Hprev in Hst.
    apply Z.leb_gt in He. rewrite He in Hst.
    destruct (throttle_interval_event index e t s) as [[t1 s1] o1].
    cbn [fst] in Hst.
    assert (Hp1 : prev t1 = Some p) by (rewrite Hst; reflexivity).
    specialize (IH t1 s1 Hp1 Hrest). cbv zeta in IH.
    destruct (throttle_calls index rest t1 s1) as [[t2 s2] o2].
    cbn [fst] in *. destruct IH as (Hp & Hpi & Hi).
    rewrite Hst in Hpi, Hi. cbn [prev_intervals intervals] in Hpi, Hi.
    split; [exact Hp |]. split; [exact Hpi |].
    rewrite Hi, sint32_add. f_equal. cbn [List.length]. lia.
Qed.

(** X19. The number that enters the speed is the number of calls since
    the last report: after a report, any run of calls within the window
    followed by a call that completes it shows
    [(double)10000 * (calls + 1) / window]. *)
Theorem throttle_counts_calls_in_window (index : nat) (p e : Z) (ends : list Z)
    (t : throttle_statics) (s : emu_state) :
  prev t = Some p ->
  intervals t = prev_intervals t ->
  Z.of_nat (List.length ends) + 1 < 2 ^ 31 ->
  Forall (fun e' => to_microseconds (e' - p) < 500000) ends ->
  500000 <= to_microseconds (e - p) ->
  let before := throttle_calls index ends t s in
  let r := throttle_interval_event index e (fst (fst before)) (snd (fst before)) in
  exists out,
    snd r
    = EvShowSpeed (throttle_speed (Z.of_nat (List.length ends) + 1)
                                  (to_microseconds (e - p))) :: out.
Proof.
  intros Hprev Heq Hlen Hall Hwin before r.
  destruct (@silent_calls_count index p ends t s Hprev Hall) as (Hp & Hpi & Hi).
  fold before in Hp, Hpi, Hi.
  destruct (throttle_statics_after index e (fst (fst before)) (snd (fst before)))
    as (_ & wait & Hout & _).
  fold r in Hout. unfold measured_window in Hout. rewrite Hp in Hout.
  apply Z.leb_le in Hwin. rewrite Hwin in Hout.
  exists (EvDoStuff :: wait). rewrite Hout. cbn [app]. do 2 f_equal.
  f_equal.
  rewrite Hpi.
  replace (sint32 (intervals (fst (fst before)) + 1) - prev_intervals t)
    with (sint32 (intervals (fst (fst before)) + 1) + - prev_intervals t) by lia.
  rewrite sint32_add.
  replace (intervals (fst (fst before)) + 1 + - prev_intervals t)
    with (intervals (fst (fst before)) + (1 - prev_intervals t)) by lia.
  rewrite <- sint32_add, Hi, sint32_add, Heq.
  replace (prev_intervals t + Z.of_nat (List.length ends) + (1 - prev_intervals t))
    with (Z.of_nat (List.length ends) + 1) by lia.
  apply sint32_id. lia.
Qed.

End Machine.

(** * A machine to run the model on *)

#[local] Existing Instance sample_header.

(** Collaborators that do as little as their types allow: the scheduler
    leaves a budget of two cycles, an instruction costs one cycle, the
    exception entry branches to the vector, serializers and resumers
    copy nothing and succeed. [flash_ok] is the answer of
    [flash_suspend]; the host clock ticks in microseconds. *)
Definition toy (flash_ok : bool) : Collaborators unit unit unit := {|
  sched_reset := fun _ =>
    {| items := fun _ => {| clock := 0; proc := None; item_rest := [] |};
       sched_rest := [] |};
  sched_update_next_event := fun _ sc => (sc, -1);
  sched_process_pending_events := fun s => Normal (with_cycle_count_delta (-2) s);
  event_repeat := fun _ _ s => s;
  sched_resume := fun _ sc => (true, sc);
  sched_suspend := fun _ r => (true, r);
  cpu_exception := fun vec s => set_pc (4 * vec) s;
  cpu_arm_loop := fun s => Normal (with_cycle_count_delta (cycle_count_delta s + 1) s);
  cpu_thumb_loop := fun s => Normal (with_cycle_count_delta (cycle_count_delta s + 1) s);
  cpu_resume := fun _ x => (true, x);
  cpu_suspend := fun _ r => (true, r);
  memory_reset := fun m => m;
  memory_initialize := fun _ m => (true, m);
  memory_deinitialize := fun m => m;
  memory_resume := fun _ m => (true, m);
  memory_suspend := fun _ r => (true, r);
  flash_open := fun _ f => (true, f);
  flash_close := fun f => f;
  flash_read_settings := fun _ => (true, (0, 0, 0));
  flash_set_bootorder := fun _ f => f;
  flash_resume := fun _ f => (true, f);
  flash_suspend := fun _ r => (flash_ok, r);
  flash_suspend_flexsize := fun _ => 0;
  debugger := fun _ s => s;
  gdbstub_reset := fun x => x;
  gdbstub_init := fun _ x => x;
  gdbstub_quit := fun x => x;
  gdbstub_recv := fun s => s;
  rdebug_bind := fun _ x => x;
  rdebug_quit := fun x => x;
  rdebug_recv := fun s => s;
  close_debugger_input := fun x => x;
  translate_init := fun x => x;
  translate_deinit := fun x => x;
  addr_cache_init := fun x => x;
  addr_cache_flush := fun x => x;
  flush_translations := fun x => x;
  throttle_timer_on := fun x => x;
  usblink_timer := fun s => s;
  usblink_queue_do := fun s => s;
  gui_getchar := fun x => (-1, x);
  serial_byte_in := fun _ s => s;
  gui_do_stuff := fun s => s;
  to_microseconds := fun ticks => ticks
|}.

Definition toy_config (dbg : bool) : config := {|
  debug_on_start := dbg;
  debug_on_warn := false;
  turbo_mode := false;
  boot_order := 0;
  path_boot1 := Some (list_ascii_of_string "/roms/boot1.img");
  path_flash := Some (list_ascii_of_string "/roms/flash.img")
|}.

(** A machine with the given status word, program counter, pending
    events and exiting flag, a budget of one cycle and empty slots. *)
Definition toy_machine (cpsr pc0 events : Z) (quit dbg : bool) : emu_state unit unit unit := {|
  arm := {| reg := upd (fun _ => 0) 15%nat pc0; cpsr_low28 := cpsr; control := 0;
            arm_rest := [] |};
  cpu_events := events;
  cycle_count_delta := -1;
  exiting := quit;
  cfg := toy_config dbg;
  product := 0x0E0;
  asic_user_flags := 0;
  sched := {| items := fun _ => {| clock := 0; proc := None; item_rest := [] |};
              sched_rest := [] |};
  mem := {| rom := fun _ => 0; rom_flags := fun _ => 0; ram := fun _ => 0;
            ram_size := 0; periph := tt |};
  flash := tt;
  host := tt
|}.

(** A snapshot image with the given signature and every path byte set
    to [c]. *)
Definition toy_image (signature : Z) (c : ascii) : emu_snapshot := {|
  sig := signature;
  snap_product := 0x0E0;
  snap_asic_user_flags := 0;
  snap_path_boot1 := repeat c sizeof_path_boot1;
  snap_path_flash := repeat c sizeof_path_flash;
  snap_flash := [];
  snap_cpu := [];
  snap_sched := [];
  snap_mem := []
|}.

(** A host on which every snapshot path opens the file [f]. *)
Definition toy_start_host (f : snapshot_file) : start_host := {|
  open_snapshot := fun _ => Some f;
  mmap_ok := true;
  open_boot1 := fun _ => Some []
|}.

(** A host on which the file opens, resizes and maps, and shows [img]. *)
Definition toy_suspend_host (img : emu_snapshot) : suspend_host := {|
  open_rw_ok := true;
  ftruncate_ok := fun _ => true;
  mmap_rw_ok := fun _ => true;
  mapped_before := img
|}.

(** * The properties on the toy machine *)

(** A machine in Thumb state at an odd address, with an IRQ pending
    while waiting for an interrupt. *)
Definition waiting_machine : emu_state unit unit unit :=
  toy_machine 0x33 0x1003 (Z.lor EVENT_IRQ EVENT_WAITING) false false.

(** A machine with every event pending. *)
Definition busy_machine : emu_state unit unit unit :=
  toy_machine 0x10 0x8000 31 false false.

(** A machine on which an exit was requested before [emu_loop]. *)
Definition quitting_machine : emu_state unit unit unit :=
  toy_machine 0x13 0 0 true false.

(** A machine configured with [debug_on_start], at rest. *)
Definition fresh_machine : emu_state unit unit unit :=
  toy_machine 0x13 0 0 false true.

Lemma reset_establishes_power_on_state_witness :
  event_bits_disjoint /\
  cpu_events busy_machine = 31 /\
  cpu_events (fst (reset_block (Co := toy true) busy_machine)) = 8 /\
  pc (fst (reset_block (Co := toy true) busy_machine)) = 0 /\
  control (arm (fst (reset_block (Co := toy true) busy_machine))) = 0x00050078.
Proof.
  assert (Hbits : event_bits_disjoint) by (repeat split; reflexivity).
  split; [exact Hbits |].
  split; [reflexivity |].
  split; [reflexivity |].
  pose proof (reset_establishes_power_on_state (Co := toy true) busy_machine Hbits) as H.
  cbv zeta in H.
  destruct H as (_ & _ & _ & _ & _ & (Hpc & _) & (Hctl & _) & _).
  split; [exact Hpc | exact Hctl].
Defined.




Lemma exit_request_ends_loop_at_poll_witness :
  exiting quitting_machine = true /\
  run (Co := toy true) 1 at_checkpoint quitting_machine = (at_return, quitting_machine, []) /\
  run (Co := toy true) 2 at_inner quitting_machine = (at_return, quitting_machine, []).
Proof.
  split; [reflexivity |].
  destruct (exit_request_ends_loop_at_poll (Co := toy true) quitting_machine eq_refl)
    as (Hck & Hin & _).
  split; [apply Hck | apply Hin].
Defined.

(** C7 as stated fails: an exit requested before [emu_loop(false)] is
    entered does not end the loop at its first poll point; the flag is
    cleared on the way in and an instruction is dispatched. *)
Lemma exit_request_before_loop_is_dropped :
  exiting quitting_machine = true /\
  fst (fst (emu_loop (Co := toy true) 4 false quitting_machine)) = at_inner /\
  exiting (snd (fst (emu_loop (Co := toy true) 4 false quitting_machine))) = false /\
  snd (emu_loop (Co := toy true) 4 false quitting_machine)
  = [EvSchedProcess; EvDispatch ArmMode].
Proof. repeat split. Qed.

(** The statics after 9999 calls of the throttle callback, with the
    window opened at tick 0 and nothing reported yet. *)
Definition statics_9999 : throttle_statics :=
  {| intervals := 9999; prev_intervals := 0; prev := Some 0; speed := 1%float |}.

(** The statics after 49 calls. *)
Definition statics_49 : throttle_statics :=
  {| intervals := 49; prev_intervals := 0; prev := Some 0; speed := 1%float |}.

Lemma throttle_reports_speed_witness :
  500000 <= measured_window (Co := toy true) 500000 statics_49 /\
  speed (fst (fst (throttle_interval_event (Co := toy true) 0 500000 statics_49
                     fresh_machine))) = 1%float /\
  prev_intervals (fst (fst (throttle_interval_event (Co := toy true) 0 500000 statics_49
                              fresh_machine))) = 50.
Proof.
  assert (Hwin : 500000 <= measured_window (Co := toy true) 500000 statics_49)
    by (apply Z.leb_le; reflexivity).
  split; [exact Hwin |].
  pose proof (throttle_reports_speed (Co := toy true) 0 500000 statics_49
                fresh_machine Hwin) as H.
  cbv zeta in H.
  destruct H as (Hsp & _ & Hprev & _).
  split; [exact Hsp | exact Hprev].
Defined.

(** C8 as stated fails: the call that completes 10000 increments in a
    window of 500000 microseconds reports 200.0, not 1.0. *)
Lemma ten_thousand_increments_report_200 :
  measured_window (Co := toy true) 500000 statics_9999 = 500000 /\
  sint32 (sint32 (intervals statics_9999 + 1) - prev_intervals statics_9999) = 10000 /\
  snd (throttle_interval_event (Co := toy true) 0 500000 statics_9999 fresh_machine)
  = [EvShowSpeed 200%float; EvDoStuff; EvThrottleWait] /\
  speed (fst (fst (throttle_interval_event (Co := toy true) 0 500000 statics_9999
                     fresh_machine))) <> 1%float.
Proof.
  split; [reflexivity |]. split; [reflexivity |]. split; [reflexivity |].
  intro H.
  apply (f_equal (fun x => PrimFloat.eqb x 1%float)) in H.
  vm_compute in H. discriminate H.
Qed.

(** A file of ten bytes. *)
Definition short_file : snapshot_file :=
  {| file_size := 10; file_image := toy_image SNAPSHOT_SIG Ascii.zero |}.

(** A file of full size whose signature has its lowest bit flipped. *)
Definition corrupted_file : snapshot_file :=
  {| file_size := sizeof_emu_snapshot; file_image := toy_image 0xCAFEBEEE Ascii.zero |}.

Lemma bad_snapshot_is_rejected_witness :
  (forall f, open_snapshot (toy_start_host short_file) [] = Some f ->
             file_size f < sizeof_emu_snapshot \/ sig (file_image f) <> SNAPSHOT_SIG) /\
  fst (fst (emu_start (Co := toy true) 0 0 (Some []) (toy_start_host short_file)
              fresh_machine)) = false /\
  ~ In EvReadSig (snd (emu_start (Co := toy true) 0 0 (Some [])
                         (toy_start_host short_file) fresh_machine)).
Proof.
  assert (Hbad : forall f, open_snapshot (toy_start_host short_file) [] = Some f ->
                   file_size f < sizeof_emu_snapshot \/ sig (file_image f) <> SNAPSHOT_SIG).
  { intros f Hf. injection Hf as <-. left. reflexivity. }
  split; [exact Hbad |].
  pose proof (bad_snapshot_is_rejected (Co := toy true) 0 0 []
                (toy_start_host short_file) fresh_machine Hbad) as H.
  cbv zeta in H.
  destruct H as (Hfalse & _ & Hsig).
  split; [exact Hfalse |].
  exact (Hsig short_file eq_refl eq_refl).
Defined.

Lemma corrupted_signature_fails_start_witness :
  sig (file_image corrupted_file) <> SNAPSHOT_SIG /\
  fst (fst (emu_start (Co := toy true) 0 0 (Some []) (toy_start_host corrupted_file)
              fresh_machine)) = false /\
  arm (snd (fst (emu_start (Co := toy true) 0 0 (Some []) (toy_start_host corrupted_file)
                   fresh_machine))) = arm fresh_machine.
Proof.
  assert (Hsig : sig (file_image corrupted_file) <> SNAPSHOT_SIG) by discriminate.
  split; [exact Hsig |].
  assert (Hsize : sizeof_emu_snapshot <= file_size corrupted_file)
    by (apply Z.leb_le; reflexivity).
  pose proof (@corrupted_signature_fails_start unit unit unit sample_header (toy true) 0 0 []
                (toy_start_host corrupted_file) fresh_machine corrupted_file
                eq_refl eq_refl Hsize Hsig) as H.
  cbv zeta in H.
  destruct H as (Hfalse & _ & _ & Harm & _).
  split; [exact Hfalse | exact Harm].
Defined.

(** C3 as stated fails: after the failed [emu_start] on a file with a
    corrupted signature, the pending-event word, the throttle slot and
    the exiting flag are not what they were. *)
Lemma corrupted_signature_mutates_state :
  fst (fst (emu_start (Co := toy true) 0 0 (Some []) (toy_start_host corrupted_file)
              fresh_machine)) = false /\
  cpu_events fresh_machine = 0 /\
  cpu_events (snd (fst (emu_start (Co := toy true) 0 0 (Some [])
                          (toy_start_host corrupted_file) fresh_machine))) = 8 /\
  proc (items (sched fresh_machine) SCHED_THROTTLE) = None /\
  proc (items (sched (snd (fst (emu_start (Co := toy true) 0 0 (Some [])
                                  (toy_start_host corrupted_file) fresh_machine))))
          SCHED_THROTTLE) = Some throttle_interval_event_proc /\
  exiting fresh_machine = false /\
  exiting (snd (fst (emu_start (Co := toy true) 0 0 (Some [])
                       (toy_start_host corrupted_file) fresh_machine))) = true.
Proof. repeat split. Qed.

(** The mapping of a file that was there before [emu_suspend], a valid
    snapshot whose path fields are full of ['X']. *)
Definition old_file : suspend_host := toy_suspend_host (toy_image SNAPSHOT_SIG "X").

Lemma failed_serialization_falls_through_witness :
  fst (fst (suspend_components (Co := toy false) fresh_machine
              (suspend_header old_file fresh_machine
                 (list_ascii_of_string "/roms/boot1.img")
                 (list_ascii_of_string "/roms/flash.img")))) = false /\
  result (emu_suspend (Co := toy false) old_file fresh_machine) = StoreAfterMunmap /\
  result (emu_suspend (Co := toy false) old_file fresh_machine) <> Returns false.
Proof.
  split; [reflexivity |].
  pose proof (@failed_serialization_falls_through unit unit unit sample_header (toy false) old_file
                fresh_machine _ _ eq_refl eq_refl eq_refl eq_refl eq_refl eq_refl) as H.
  cbv zeta in H.
  destruct H as (Hres & Hnot & _).
  split; [exact Hres | exact Hnot].
Defined.

Lemma long_path_over_old_file_is_unterminated_witness :
  no_nul (skipn (sizeof_path_boot1 - 1) (snap_path_boot1 (mapped_before old_file))) = true /\
  exists img,
    file_after (emu_suspend (Co := toy true) old_file fresh_machine) = Some img /\
    snap_path_boot1 img = list_ascii_of_string "/roms/bX" /\
    null_terminated (snap_path_boot1 img) = false.
Proof.
  assert (Hold : no_nul (skipn (sizeof_path_boot1 - 1)
                           (snap_path_boot1 (mapped_before old_file))) = true)
    by reflexivity.
  split; [exact Hold |].
  assert (Hlong : (sizeof_path_boot1 - 1
                   <= List.length (list_ascii_of_string "/roms/boot1.img"))%nat)
    by (apply Nat.leb_le; reflexivity).
  destruct (@long_path_over_old_file_is_unterminated unit unit unit sample_header
              (toy true) old_file fresh_machine
              (list_ascii_of_string "/roms/boot1.img")
              (list_ascii_of_string "/roms/flash.img")
              eq_refl eq_refl eq_refl eq_refl eq_refl eq_refl eq_refl Hlong Hold)
    as (img & Hfile & Hpath & Hterm).
  exists img. split; [exact Hfile |]. split; [exact Hpath | exact Hterm].
Defined.

(** * More runs on the toy machine *)

(** A host on which the snapshot file cannot be opened for writing. *)
Definition read_only_host : suspend_host := {|
  open_rw_ok := false;
  ftruncate_ok := fun _ => true;
  mmap_rw_ok := fun _ => true;
  mapped_before := toy_image 0 Ascii.zero
|}.

(** The mapping of a file that [emu_suspend] has just created. *)
Definition new_file : suspend_host := toy_suspend_host (toy_image 0 Ascii.zero).

(** The toy machine with the given paths; [None] is a null pointer. *)
Definition machine_with_paths (boot1 pflash : option (list ascii))
  : emu_state unit unit unit := {|
  arm := arm fresh_machine;
  cpu_events := 0;
  cycle_count_delta := -1;
  exiting := false;
  cfg := {| debug_on_start := false; debug_on_warn := false; turbo_mode := false;
            boot_order := 0; path_boot1 := boot1; path_flash := pflash |};
  product := 0x0E0;
  asic_user_flags := 0;
  sched := sched fresh_machine;
  mem := mem fresh_machine;
  flash := tt;
  host := tt
|}.

Definition short_path_machine : emu_state unit unit unit :=
  machine_with_paths (Some (list_ascii_of_string "b1")) (Some (list_ascii_of_string "fl")).

Lemma suspend_host_failure_returns_false_witness :
  open_rw_ok read_only_host = false /\
  result (emu_suspend (Co := toy true) read_only_host fresh_machine) = Returns false /\
  stores (emu_suspend (Co := toy true) read_only_host fresh_machine) = [].
Proof.
  split; [reflexivity |].
  destruct (@suspend_host_failure_returns_false unit unit unit sample_header (toy true)
              read_only_host fresh_machine (or_introl eq_refl)) as (Hres & _ & Hst).
  split; [exact Hres | exact Hst].
Defined.

Lemma signature_stored_last_witness :
  result (emu_suspend (Co := toy true) new_file fresh_machine) = Returns true /\
  exists img, file_after (emu_suspend (Co := toy true) new_file fresh_machine) = Some img /\
              sig img = SNAPSHOT_SIG.
Proof.
  pose proof (@signature_stored_last unit unit unit sample_header (toy true) new_file
                fresh_machine _ _ eq_refl eq_refl eq_refl eq_refl eq_refl eq_refl) as H.
  cbv zeta in H. destruct H as (Hres & _ & Himg).
  split; [exact Hres | exact Himg].
Defined.

Lemma paths_terminated_in_new_file_witness :
  exists img,
    file_after (emu_suspend (Co := toy true) new_file fresh_machine) = Some img /\
    c_str (snap_path_boot1 img) = list_ascii_of_string "/roms/b" /\
    null_terminated (snap_path_boot1 img) = true /\
    null_terminated (snap_path_flash img) = true.
Proof.
  destruct (@paths_terminated_in_new_file unit unit unit sample_header (toy true) new_file
              fresh_machine _ _ eq_refl eq_refl eq_refl eq_refl eq_refl eq_refl eq_refl)
    as (img & Hfile & Hb & Hf).
  exists img. split; [exact Hfile |].
  injection Hfile as <-.
  split; [reflexivity |]. split; [exact Hb | exact Hf].
Defined.

Lemma short_paths_read_back_witness :
  exists img,
    file_after (emu_suspend (Co := toy false) old_file short_path_machine) = Some img /\
    snap_path_boot1 img
    = list_ascii_of_string "b1" ++ repeat Ascii.zero 5 ++ list_ascii_of_string "X" /\
    c_str (snap_path_boot1 img) = list_ascii_of_string "b1" /\
    c_str (snap_path_flash img) = list_ascii_of_string "fl".
Proof.
  assert (Hb : (List.length (list_ascii_of_string "b1") < sizeof_path_boot1 - 1)%nat)
    by (apply Nat.ltb_lt; reflexivity).
  assert (Hf : (List.length (list_ascii_of_string "fl") < sizeof_path_flash - 1)%nat)
    by (apply Nat.ltb_lt; reflexivity).
  destruct (@short_paths_read_back unit unit unit sample_header (toy false) old_file
              short_path_machine _ _ eq_refl eq_refl eq_refl eq_refl eq_refl
              eq_refl eq_refl eq_refl eq_refl Hb Hf)
    as (img & Hfile & Hcb & Hcf & _).
  exists img. split; [exact Hfile |].
  injection Hfile as <-.
  split; [reflexivity |]. split; [exact Hcb | exact Hcf].
Defined.

Lemma completed_snapshot_passes_validation_witness :
  exists img,
    file_after (emu_suspend (Co := toy true) new_file fresh_machine) = Some img /\
    fst (fst (resume_components (Co := toy true) (suspend_size (Co := toy true) fresh_machine)
                img fresh_machine)) = true /\
    sig img = SNAPSHOT_SIG.
Proof.
  eexists. split; [reflexivity |]. split; [reflexivity |].
  assert (Hflex : 0 <= flash_suspend_flexsize (Collaborators := toy true) (flash fresh_machine))
    by (apply Z.leb_le; reflexivity).
  exact (proj1 (@completed_snapshot_passes_validation unit unit unit sample_header
                  (toy true) new_file fresh_machine fresh_machine _
                  Hflex eq_refl eq_refl)).
Defined.

(** A snapshot of full size with the right signature. *)
Definition good_file : snapshot_file :=
  {| file_size := sizeof_emu_snapshot; file_image := toy_image SNAPSHOT_SIG Ascii.zero |}.

(** A host whose boot1 image holds the four bytes 1, 2, 3, 4. *)
Definition boot1_host : start_host := {|
  open_snapshot := fun _ => Some good_file;
  mmap_ok := true;
  open_boot1 := fun _ => Some [1; 2; 3; 4]
|}.

(** A host on which the boot1 image cannot be opened. *)
Definition no_boot1_host : start_host := {|
  open_snapshot := fun _ => Some good_file;
  mmap_ok := true;
  open_boot1 := fun _ => None
|}.

(** A machine with no storage path. *)
Definition no_storage_machine : emu_state unit unit unit :=
  machine_with_paths (Some (list_ascii_of_string "b1")) None.

(** The toy collaborators, with a memory subsystem that refuses to
    resume. *)
Definition toy_memory_refuses : Collaborators unit unit unit := {|
  sched_reset := sched_reset (Collaborators := toy true);
  sched_update_next_event := sched_update_next_event (Collaborators := toy true);
  sched_process_pending_events := sched_process_pending_events (Collaborators := toy true);
  event_repeat := event_repeat (Collaborators := toy true);
  sched_resume := sched_resume (Collaborators := toy true);
  sched_suspend := sched_suspend (Collaborators := toy true);
  cpu_exception := cpu_exception (Collaborators := toy true);
  cpu_arm_loop := cpu_arm_loop (Collaborators := toy true);
  cpu_thumb_loop := cpu_thumb_loop (Collaborators := toy true);
  cpu_resume := cpu_resume (Collaborators := toy true);
  cpu_suspend := cpu_suspend (Collaborators := toy true);
  memory_reset := memory_reset (Collaborators := toy true);
  memory_initialize := memory_initialize (Collaborators := toy true);
  memory_deinitialize := memory_deinitialize (Collaborators := toy true);
  memory_resume := fun _ m => (false, m);
  memory_suspend := memory_suspend (Collaborators := toy true);
  flash_open := flash_open (Collaborators := toy true);
  flash_close := flash_close (Collaborators := toy true);
  flash_read_settings := flash_read_settings (Collaborators := toy true);
  flash_set_bootorder := flash_set_bootorder (Collaborators := toy true);
  flash_resume := flash_resume (Collaborators := toy true);
  flash_suspend := flash_suspend (Collaborators := toy true);
  flash_suspend_flexsize := flash_suspend_flexsize (Collaborators := toy true);
  debugger := debugger (Collaborators := toy true);
  gdbstub_reset := gdbstub_reset (Collaborators := toy true);
  gdbstub_init := gdbstub_init (Collaborators := toy true);
  gdbstub_quit := gdbstub_quit (Collaborators := toy true);
  gdbstub_recv := gdbstub_recv (Collaborators := toy true);
  rdebug_bind := rdebug_bind (Collaborators := toy true);
  rdebug_quit := rdebug_quit (Collaborators := toy true);
  rdebug_recv := rdebug_recv (Collaborators := toy true);
  close_debugger_input := close_debugger_input (Collaborators := toy true);
  translate_init := translate_init (Collaborators := toy true);
  translate_deinit := translate_deinit (Collaborators := toy true);
  addr_cache_init := addr_cache_init (Collaborators := toy true);
  addr_cache_flush := addr_cache_flush (Collaborators := toy true);
  flush_translations := flush_translations (Collaborators := toy true);
  throttle_timer_on := throttle_timer_on (Collaborators := toy true);
  usblink_timer := usblink_timer (Collaborators := toy true);
  usblink_queue_do := usblink_queue_do (Collaborators := toy true);
  gui_getchar := gui_getchar (Collaborators := toy true);
  serial_byte_in := serial_byte_in (Collaborators := toy true);
  gui_do_stuff := gui_do_stuff (Collaborators := toy true);
  to_microseconds := to_microseconds (Collaborators := toy true)
|}.

Lemma started_rom_is_loaded_and_read_only_witness :
  fst (fst (emu_start (Co := toy true) 0 0 None boot1_host fresh_machine)) = true /\
  rom_flags (mem (snd (fst (emu_start (Co := toy true) 0 0 None boot1_host fresh_machine))))
    0x7FFFC = RF_READ_ONLY /\
  rom (mem (snd (fst (emu_start (Co := toy true) 0 0 None boot1_host fresh_machine)))) 2 = 3 /\
  rom (mem (snd (fst (emu_start (Co := toy true) 0 0 None boot1_host fresh_machine)))) 4
  = 255.
Proof.
  assert (Hok : fst (fst (emu_start (Co := toy true) 0 0 None boot1_host fresh_machine))
                = true) by reflexivity.
  split; [exact Hok |].
  pose proof (@started_rom_is_loaded_and_read_only unit unit unit sample_header (toy true)
                0 0 None boot1_host fresh_machine Hok) as H.
  cbv zeta in H. destruct H as (Hflags & Hbytes).
  split; [| split].
  - apply Hflags; [split; [apply Z.leb_le | apply Z.ltb_lt]; reflexivity | reflexivity].
  - exact (Hbytes 2 (conj (proj1 (Z.leb_le 0 2) eq_refl) (proj1 (Z.ltb_lt 2 0x80000) eq_refl))).
  - exact (Hbytes 4 (conj (proj1 (Z.leb_le 0 4) eq_refl) (proj1 (Z.ltb_lt 4 0x80000) eq_refl))).
Defined.

Lemma unreadable_boot1_fails_start_witness :
  open_boot1 no_boot1_host (list_ascii_of_string "/roms/boot1.img") = None /\
  fst (fst (emu_start (Co := toy true) 0 0 None no_boot1_host fresh_machine)) = false /\
  fst (fst (emu_start (Co := toy true) 0 0 (Some []) no_boot1_host fresh_machine)) = false.
Proof.
  split; [reflexivity |]. split.
  - exact (@unreadable_boot1_fails_start unit unit unit sample_header (toy true) 0 0 None
             no_boot1_host fresh_machine _ eq_refl eq_refl).
  - exact (@unreadable_boot1_fails_start unit unit unit sample_header (toy true) 0 0
             (Some []) no_boot1_host fresh_machine _ eq_refl eq_refl).
Defined.

Lemma cold_boot_without_storage_fails_witness :
  path_flash (cfg no_storage_machine) = None /\
  fst (fst (emu_start (Co := toy true) 0 0 None boot1_host no_storage_machine)) = false /\
  snd (emu_start (Co := toy true) 0 0 None boot1_host no_storage_machine) = [] /\
  host (snd (fst (emu_start (Co := toy true) 0 0 None boot1_host no_storage_machine)))
  = host no_storage_machine.
Proof.
  split; [reflexivity |].
  pose proof (@cold_boot_without_storage_fails unit unit unit sample_header (toy true) 0 0
                boot1_host no_storage_machine (or_introl eq_refl)) as H.
  cbv zeta in H. destruct H as (Hres & Hout & _ & Hhost & _).
  split; [exact Hres |]. split; [exact Hout | exact Hhost].
Defined.

Lemma failed_resume_cleans_up_witness :
  emu_start (Co := toy_memory_refuses) 0 0 (Some []) boot1_host fresh_machine
  = (false,
     cleaned_up (Co := toy_memory_refuses)
       (with_settings 0 0 (before_resume fresh_machine)),
     [EvReadSig; EvFlashResume; EvFlashReadSettings; EvCpuResume; EvMemoryResume;
      EvMemoryReset; EvMemoryDeinitialize; EvFlashClose; EvMunmap]).
Proof.
  exact (proj1 (@failed_resume_cleans_up unit unit unit sample_header toy_memory_refuses
                  0 0 [] boot1_host fresh_machine good_file eq_refl eq_refl eq_refl)).
Defined.

(** A machine stopped at the address that [exec_hack] watches. *)
Definition boot2_machine : emu_state unit unit unit :=
  set_pc 0x10040 (toy_machine 0x13 0 0 false false).

(** The statics right after a report at tick 0, seven intervals in. *)
Definition statics_reported : throttle_statics :=
  {| intervals := 7; prev_intervals := 7; prev := Some 0; speed := 1%float |}.

Lemma dispatch_only_within_budget_witness :
  In (EvDispatch ThumbMode) (snd (step (Co := toy true) at_inner waiting_machine)) /\
  exiting waiting_machine = false /\ cycle_count_delta waiting_machine < 0.
Proof.
  assert (Hin : In (EvDispatch ThumbMode)
                  (snd (step (Co := toy true) at_inner waiting_machine)))
    by (right; left; reflexivity).
  split; [exact Hin |].
  destruct (@dispatch_only_within_budget unit unit unit sample_header (toy true)
              at_inner waiting_machine ThumbMode Hin) as (_ & Hex & Hneg & _).
  split; [exact Hex | exact Hneg].
Defined.

Lemma exec_hack_returns_to_caller_witness :
  debug_on_warn (cfg boot2_machine) = false /\
  pc boot2_machine = 0x10040 /\
  fst (fst (exec_hack (Co := toy true) boot2_machine)) = 1 /\
  pc (snd (fst (exec_hack (Co := toy true) boot2_machine))) = 0.
Proof.
  split; [reflexivity |]. split; [reflexivity |].
  destruct (@exec_hack_returns_to_caller unit unit unit sample_header (toy true)
              boot2_machine eq_refl) as (Hone & _ & Hat).
  split; [exact (proj2 Hone eq_refl) | exact (proj1 (Hat eq_refl))].
Defined.

Lemma throttle_is_silent_within_window_witness :
  to_microseconds (Collaborators := toy true) (499999 - 0) < 500000 /\
  snd (throttle_interval_event (Co := toy true) 0 499999 statics_reported fresh_machine)
  = [EvDoStuff; EvThrottleWait] /\
  intervals (fst (fst (throttle_interval_event (Co := toy true) 0 499999 statics_reported
                         fresh_machine))) = 8.
Proof.
  assert (Hwin : to_microseconds (Collaborators := toy true) (499999 - 0) < 500000)
    by reflexivity.
  split; [exact Hwin |]. split; [reflexivity |].
  pose proof (@throttle_is_silent_within_window unit unit unit (toy true) 0
                499999 0 statics_reported fresh_machine eq_refl Hwin) as H.
  cbv zeta in H. destruct H as (_ & _ & _ & _ & Hint).
  exact Hint.
Defined.

Lemma throttle_counts_calls_in_window_witness :
  exists out,
    snd (throttle_interval_event (Co := toy true) 0 500000
           (fst (fst (throttle_calls (Co := toy true) 0 [10000; 20000] statics_reported
                        fresh_machine)))
           (snd (fst (throttle_calls (Co := toy true) 0 [10000; 20000] statics_reported
                        fresh_machine))))
    = EvShowSpeed (throttle_speed 3 500000) :: out.
Proof.
  assert (Hall : Forall (fun e' => to_microseconds (Collaborators := toy true) (e' - 0) < 500000)
                   [10000; 20000])
    by (repeat constructor).
  assert (Hlen : Z.of_nat (List.length [10000; 20000]) + 1 < 2 ^ 31) by reflexivity.
  assert (Hwin : 500000 <= to_microseconds (Collaborators := toy true) (500000 - 0))
    by (apply Z.leb_le; reflexivity).
  exact (@throttle_counts_calls_in_window unit unit unit (toy true) 0 0 500000
           [10000; 20000] statics_reported fresh_machine eq_refl eq_refl Hlen Hall Hwin).
Defined.
